(** * Strapi content source for Stackbit: the mapping engine

    A shallow embedding of [src/strapi-source-utils.ts] (schema mapping,
    document mapping, write-back payloads), of the composite-id handling of
    [StrapiContentSource.updateDocument] and of the source types declared in
    [strapi-api-client.ts]; further, of the constructor, [getDocuments] and
    [initWebhook] of the content source and of the webhook list and the
    paging loop of the API client.

    JavaScript values are an inductive type; exceptions and console output
    are explicit: a computation returns the console calls it made together
    with its completion.  The host cache ([stackbitCache.getModelByName]) is
    a parameter of every function that reads it.  An object filled by
    assignments is the list of its own properties; where the assigned
    values are arbitrary, its prototype is kept with it, since an
    assignment to [__proto__] goes to the accessor of [Object.prototype]. *)

From Stdlib Require Import ZArith String List Ascii Bool Lia DecimalString.
Import ListNotations.

Local Open Scope string_scope.
Local Open Scope list_scope.

Infix "+++" := String.append (right associativity, at level 60).

Set Warnings "-register-all".

(** ** JavaScript values *)

(** The values a parsed JSON body or a plain object can hold.  Numbers are
    integers: fractional numbers, [NaN] and the exponent notation of very
    large numbers are outside this model. *)
Inductive JsValue : Type :=
| JUndefined
| JNull
| JBool (b : bool)
| JNumber (n : Z)
| JString (s : string)
| JArray (elements : list JsValue)
| JObject (properties : list (string * JsValue)).

(** [v ? a : b], [!!v], [a && b]: the truthiness of a value. *)
Definition truthy (v : JsValue) : bool :=
  match v with
  | JUndefined | JNull => false
  | JBool b => b
  | JNumber n => negb (n =? 0)%Z
  | JString s => negb (s =? "")
  | JArray _ | JObject _ => true
  end.

(** [v !== null]. *)
Definition not_null (v : JsValue) : bool :=
  match v with
  | JNull => false
  | _ => true
  end.

Definition decimal (n : Z) : string := NilZero.string_of_int (Z.to_int n).

(** The string a template literal [`${v}`] inserts for [v]. *)
Fixpoint toString (v : JsValue) : string :=
  match v with
  | JUndefined => "undefined"
  | JNull => "null"
  | JBool true => "true"
  | JBool false => "false"
  | JNumber n => decimal n
  | JString s => s
  | JArray l =>
      (fix join (l : list JsValue) : string :=
         match l with
         | [] => ""
         | x :: r =>
             let sx := match x with
                       | JUndefined | JNull => ""
                       | _ => toString x
                       end in
             match r with
             | [] => sx
             | _ :: _ => sx +++ "," +++ join r
             end
         end) l
  | JObject _ => "[object Object]"
  end.

(** Property lookup in the entries of an object; an absent property reads
    as [undefined].  Keys of a JavaScript object are unique, so the first
    entry is the only one. *)
Fixpoint lookup {A : Type} (key : string) (entries : list (string * A)) : option A :=
  match entries with
  | [] => None
  | (k, v) :: rest => if k =? key then Some v else lookup key rest
  end.

Definition prop (key : string) (entries : list (string * JsValue)) : JsValue :=
  match lookup key entries with
  | Some v => v
  | None => JUndefined
  end.

(** The own properties of [obj] after [obj[key] = v] for a key that the
    object does not inherit as an accessor: an existing key keeps its place
    and takes the new value, a new key is added at the end. *)
Fixpoint assign_own {A : Type} (key : string) (v : A) (entries : list (string * A))
  : list (string * A) :=
  match entries with
  | [] => [(key, v)]
  | (k, w) :: rest =>
      if k =? key then (k, v) :: rest else (k, w) :: assign_own key v rest
  end.

(** [obj[key] = v] on an object that started as [{}], for values [v] that
    are objects built by an object literal of the code.  The key [__proto__]
    is an accessor of [Object.prototype]: assigning to it calls the setter,
    which makes [v] the prototype of the object and defines no property;
    the entries, which are the own properties, stay as they are.  The new
    prototype has no [__proto__] property of its own, so a further
    assignment to [__proto__] reaches the same setter. *)
Definition assign {A : Type} (key : string) (v : A) (entries : list (string * A))
  : list (string * A) :=
  if key =? "__proto__" then entries else assign_own key v entries.

(** The prototype of an object that started as [{}]: [Object.prototype],
    or what the [__proto__] setter has put in its place. *)
Inductive Prototype : Type :=
| Object_prototype
| Null_prototype
| Prototype_of (v : JsValue).

(** An object that started as [{}] and is assigned arbitrary values: its
    own properties, in the order of their creation, and its prototype. *)
Record PlainObject : Type := {
  own : list (string * JsValue);
  prototype : Prototype
}.

Definition empty_object : PlainObject :=
  {| own := []; prototype := Object_prototype |}.

Definition has_own (key : string) (o : PlainObject) : bool :=
  match lookup key (own o) with
  | Some _ => true
  | None => false
  end.

(** Whether the key [__proto__], looked up along the chain that starts at
    this prototype, is the accessor of [Object.prototype]: not below a
    [null] prototype, and not when the prototype is an object with a
    [__proto__] property of its own (as [JSON.parse] creates), which is a
    data property found first. *)
Definition reaches_accessor (p : Prototype) : bool :=
  match p with
  | Object_prototype => true
  | Null_prototype => false
  | Prototype_of (JObject properties) =>
      match lookup "__proto__" properties with
      | Some _ => false
      | None => true
      end
  | Prototype_of _ => true
  end.

(** The setter of the accessor [__proto__]: an object or [null] replaces
    the prototype, any other value is ignored. *)
Definition proto_setter (v : JsValue) (p : Prototype) : Prototype :=
  match v with
  | JObject _ | JArray _ => Prototype_of v
  | JNull => Null_prototype
  | _ => p
  end.

(** [obj[key] = v] for any value [v].  An assignment to [__proto__] that
    finds no own property and reaches the accessor calls its setter and
    defines nothing; every other assignment updates the own property of
    that key or creates it. *)
Definition set_property (key : string) (v : JsValue) (o : PlainObject) : PlainObject :=
  if (key =? "__proto__") && negb (has_own key o) && reaches_accessor (prototype o)
  then {| own := own o; prototype := proto_setter v (prototype o) |}
  else {| own := assign_own key v (own o); prototype := prototype o |}.

(** ** Exceptions and console output *)

Inductive Exception : Type :=
| TypeError
| Error (message : string).

Inductive ConsoleCall : Type :=
| console_log (line : string)
| console_error (line : string).

(** How a call ends: normally, by a thrown exception, or (document mapping
    only, whose recursion follows the cached models) by exhausting the
    recursion budget of the model. *)
Inductive Completion (A : Type) : Type :=
| Normal (a : A)
| Throw (e : Exception)
| OutOfFuel.
Arguments Normal {A} a.
Arguments Throw {A} e.
Arguments OutOfFuel {A}.

Definition M (A : Type) : Type := (list ConsoleCall * Completion A)%type.

Definition ret {A : Type} (a : A) : M A := ([], Normal a).

Definition throw {A : Type} (e : Exception) : M A := ([], Throw e).

Definition console {A : Type} (c : ConsoleCall) (a : A) : M A := ([c], Normal a).

Definition bind {A B : Type} (m : M A) (f : A -> M B) : M B :=
  match m with
  | (out, Normal a) => let (out', r) := f a in (out ++ out', r)
  | (out, Throw e) => (out, Throw e)
  | (out, OutOfFuel) => (out, OutOfFuel)
  end.

Notation "x <- m ;; k" := (bind m (fun x => k))
  (at level 61, m at next level, right associativity).

(** [array.map(f)] with a callback that may throw: left to right, stopping
    at the first exception. *)
Fixpoint mapM {A B : Type} (f : A -> M B) (l : list A) : M (list B) :=
  match l with
  | [] => ret []
  | x :: rest =>
      y <- f x ;;
      ys <- mapM f rest ;;
      ret (y :: ys)
  end.

(** [array.reduce(f, init)] with a callback that may throw. *)
Fixpoint reduceM {A B : Type} (f : B -> A -> M B) (l : list A) (acc : B) : M B :=
  match l with
  | [] => ret acc
  | x :: rest =>
      acc' <- f acc x ;;
      reduceM f rest acc'
  end.

(** [v.key] for the keys the source reads on untyped values ([data], [id],
    [draftAndPublish]): reading a property of [undefined] or [null] throws,
    an object yields the property, and no other value defines these keys. *)
Definition getProp (v : JsValue) (key : string) : M JsValue :=
  match v with
  | JUndefined | JNull => throw TypeError
  | JObject entries => ret (prop key entries)
  | _ => ret JUndefined
  end.

Fixpoint indexed {A : Type} (i : nat) (l : list A) : list (string * A) :=
  match l with
  | [] => []
  | x :: rest => (decimal (Z.of_nat i), x) :: indexed (S i) rest
  end.

Fixpoint characters (s : string) : list JsValue :=
  match s with
  | EmptyString => []
  | String c rest => JString (String c EmptyString) :: characters rest
  end.

(** [Object.entries(v)]: throws on [undefined] and [null]; an array and a
    string list their indices; a number or a boolean has no entries. *)
Definition Object_entries (v : JsValue) : M (list (string * JsValue)) :=
  match v with
  | JUndefined | JNull => throw TypeError
  | JObject entries => ret entries
  | JArray l => ret (indexed 0 l)
  | JString s => ret (indexed 0 (characters s))
  | JBool _ | JNumber _ => ret []
  end.

(** [v.map(f)]: only an array has [map]; on anything else the call throws. *)
Definition Array_map {B : Type} (v : JsValue) (f : JsValue -> M B) : M (list B) :=
  match v with
  | JArray l => mapM f l
  | _ => throw TypeError
  end.

(** ** Strings *)

(** [s.replace(/-/g, '_')]. *)
Fixpoint replace_hyphens (s : string) : string :=
  match s with
  | EmptyString => EmptyString
  | String c rest =>
      String (if Ascii.eqb c "-" then "_"%char else c) (replace_hyphens rest)
  end.

(** [s.split(sep)] for a one-character separator: never empty, the pieces
    between all the occurrences of [sep]. *)
Fixpoint split (sep : ascii) (s : string) : list string :=
  match s with
  | EmptyString => [EmptyString]
  | String c rest =>
      if Ascii.eqb c sep then EmptyString :: split sep rest
      else match split sep rest with
           | [] => [String c EmptyString]
           | piece :: pieces => String c piece :: pieces
           end
  end.

Fixpoint occurs (c : ascii) (s : string) : bool :=
  match s with
  | EmptyString => false
  | String c' rest => Ascii.eqb c' c || occurs c rest
  end.

Definition line_terminator (c : ascii) : bool :=
  Ascii.eqb c "010" || Ascii.eqb c "013".

(** The part of [s] after the last ["."] of its first line, when that line
    has one. *)
Fixpoint after_last_dot (s : string) : option string :=
  match s with
  | EmptyString => None
  | String c rest =>
      if line_terminator c then None
      else match after_last_dot rest with
           | Some tail => Some tail
           | None => if Ascii.eqb c "." then Some rest else None
           end
  end.

(** [s.replace(/^.*\./, '')]: the greedy prefix up to the last dot that a
    run of non-line-terminators reaches is removed; without such a dot the
    string is unchanged. *)
Definition strip_namespace (s : string) : string :=
  match after_last_dot s with
  | Some tail => tail
  | None => s
  end.

(** ** Source schema ([strapi-api-client.ts]) *)

(** [AttributeModel], as the object the classifier reads at run time: the
    tag and the properties of the three declared shapes, each absent
    ([None], or [JUndefined] for the untyped [default]) when the shape of the
    attribute does not carry it.  The tag is a string: the content-manager
    API also sends tags the declaration does not list. *)
Record AttributeModel : Type := {
  attr_type : string;
  attr_required : option bool;
  attr_repeatable : option bool;
  attr_default : JsValue;
  attr_component : option string;
  attr_relation : option string;
  attr_target : option string
}.

(** [StrapiContentType | StrapiComponent]: the properties [toStackbitModels]
    reads.  [options] is declared [any]; a component has no
    [info.pluralName]. *)
Record StrapiContentType : Type := {
  apiID : string;
  uid : string;
  attributes : list (string * AttributeModel);
  options : JsValue;
  info_pluralName : option string
}.

(** [StrapiContentTypeSetting]: [uid] and [settings?.mainField]. *)
Record StrapiContentTypeSetting : Type := {
  cts_uid : string;
  cts_mainField : option string
}.

(** [StrapiDocument]. *)
Record StrapiDocument : Type := {
  doc_id : Z;
  doc_type : string;
  doc_attributes : list (string * JsValue)
}.

(** ** Stackbit models and fields ([@stackbit/types]) *)

(** The field types of the host platform, the cases of the switches of
    [toDocumentField], [toDocumentListFieldItems] and of the write path. *)
Inductive FieldType : Type :=
| Fstring | Furl | Fslug | Ftext | Fmarkdown | Fhtml | Fnumber | Fboolean
| Fdate | Fdatetime | Fcolor | Fjson | FrichText | Ffile | Fenum | Fimage
| Fobject | Fmodel | Freference | Fcross_reference | Fstyle | Flist.

Definition FieldType_name (t : FieldType) : string :=
  match t with
  | Fstring => "string" | Furl => "url" | Fslug => "slug" | Ftext => "text"
  | Fmarkdown => "markdown" | Fhtml => "html" | Fnumber => "number"
  | Fboolean => "boolean" | Fdate => "date" | Fdatetime => "datetime"
  | Fcolor => "color" | Fjson => "json" | FrichText => "richText"
  | Ffile => "file" | Fenum => "enum" | Fimage => "image"
  | Fobject => "object" | Fmodel => "model" | Freference => "reference"
  | Fcross_reference => "cross-reference" | Fstyle => "style"
  | Flist => "list"
  end.

Definition all_FieldTypes : list FieldType :=
  [Fstring; Furl; Fslug; Ftext; Fmarkdown; Fhtml; Fnumber; Fboolean; Fdate;
   Fdatetime; Fcolor; Fjson; FrichText; Ffile; Fenum; Fimage; Fobject; Fmodel;
   Freference; Fcross_reference; Fstyle; Flist].

(** The field type a tag string names, if any. *)
Definition FieldType_of_name (tag : string) : option FieldType :=
  find (fun t => FieldType_name t =? tag) all_FieldTypes.

(** The [items] of a list field. *)
Record FieldSpecificProps : Type := {
  items_type : FieldType;
  items_models : list string
}.

(** A field as [toStackbitModels] builds it.  [field_type] is [None] when
    the [type] property holds [undefined]; [field_required] and
    [field_items] are [None] when the object has no such property. *)
Record FieldProps : Type := {
  field_type : option FieldType;
  field_name : string;
  field_required : option bool;
  field_default : JsValue;
  field_models : list string;
  field_items : option FieldSpecificProps
}.

(** An element of a model's [fields]: a field object, or the source
    attribute itself, which the [default] branch of the classifier returns
    as it is. *)
Inductive Field : Type :=
| StackbitField (f : FieldProps)
| AttributeAsField (a : AttributeModel).

(** [StrapiModelContext]; [draftAndPublish] is copied from the untyped
    [options]. *)
Record StrapiModelContext : Type := {
  draftAndPublish : JsValue;
  apiEndpoint : option string
}.

Inductive ModelType : Type := data | object.

Record Model : Type := {
  model_type : ModelType;
  model_name : string;
  model_context : option StrapiModelContext;
  model_labelField : option string;
  model_fields : option (list Field)
}.

(** ** Schema mapping *)

(** The [typeMapping] table. *)
Definition typeMapping (key : string) : option FieldType :=
  lookup key
    [("boolean", Fboolean); ("integer", Fnumber); ("string", Fstring);
     ("richtext", Ftext); ("text", Ftext); ("datetime", Fdatetime);
     ("json", Fjson); ("enumeration", Fstring)].

Definition includes (l : list string) (s : string) : bool :=
  existsb (String.eqb s) l.

(** The tags of the first [case] group of the classifier. *)
Definition scalar_cases : list string :=
  ["float"; "boolean"; "string"; "richtext"; "integer"; "datetime"; "json";
   "text"; "enumeration"].

(** [!!attribute.required], and the test of [attribute.repeatable]: the
    truthiness of an optional boolean. *)
Definition double_negation (b : option bool) : bool :=
  match b with
  | Some b => b
  | None => false
  end.

(** [attribute.target.split('.')[1].replace(/-/g, '_')]. *)
Definition relation_target (attribute : AttributeModel) : M string :=
  match attr_target attribute with
  | None => throw TypeError
  | Some target =>
      match nth_error (split "." target) 1 with
      | None => throw TypeError
      | Some piece => ret (replace_hyphens piece)
      end
  end.

(** [attribute.component!.replace(/^.*\./, '').replace(/-/g, '_')]. *)
Definition component_target (attribute : AttributeModel) : M string :=
  match attr_component attribute with
  | None => throw TypeError
  | Some component => ret (replace_hyphens (strip_namespace component))
  end.

Definition plain_field (type : option FieldType) (name : string) : FieldProps :=
  {| field_type := type; field_name := name; field_required := None;
     field_default := JUndefined; field_models := []; field_items := None |}.

(** The classifier: the callback mapped over [Object.entries(model.attributes)]. *)
Definition toStackbitField (entry : string * AttributeModel) : M Field :=
  let (attributeName, attribute) := entry in
  let tag := attr_type attribute in
  if includes scalar_cases tag then
    ret (StackbitField
           {| field_type := typeMapping tag;
              field_name := attributeName;
              field_required := Some (double_negation (attr_required attribute));
              field_default := attr_default attribute;
              field_models := [];
              field_items := None |})
  else if tag =? "relation" then
    if match attr_relation attribute with
       | Some r => includes ["oneToMany"; "manyToMany"] r
       | None => false
       end
    then
      target <- relation_target attribute ;;
      ret (StackbitField
             {| field_type := Some Flist;
                field_name := attributeName;
                field_required := None;
                field_default := JUndefined;
                field_models := [];
                field_items := Some {| items_type := Freference;
                                       items_models := [target] |} |})
    else
      target <- relation_target attribute ;;
      ret (StackbitField
             {| field_type := Some Freference;
                field_name := attributeName;
                field_required := None;
                field_default := JUndefined;
                field_models := [target];
                field_items := None |})
  else if tag =? "component" then
    if double_negation (attr_repeatable attribute) then
      target <- component_target attribute ;;
      ret (StackbitField
             {| field_type := Some Flist;
                field_name := attributeName;
                field_required := None;
                field_default := JUndefined;
                field_models := [];
                field_items := Some {| items_type := Fmodel;
                                       items_models := [target] |} |})
    else
      target <- component_target attribute ;;
      ret (StackbitField
             {| field_type := Some Fmodel;
                field_name := attributeName;
                field_required := None;
                field_default := JUndefined;
                field_models := [target];
                field_items := None |})
  else if tag =? "media" then
    ret (StackbitField (plain_field (Some Ffile) attributeName))
  else
    console (console_log ("Unknown attribute type: " +++ tag))
            (AttributeAsField attribute).

(** The callback of [models.map] in [toStackbitModels]; the properties of
    the object literal are evaluated in their order. *)
Definition toStackbitModel (contentTypeSettings : list StrapiContentTypeSetting)
  (model : StrapiContentType) : M Model :=
  let contentTypeSetting :=
    find (fun cts => cts_uid cts =? uid model) contentTypeSettings in
  dap <- getProp (options model) "draftAndPublish" ;;
  fields <- mapM toStackbitField (attributes model) ;;
  ret {| model_type := if String.prefix "api::" (uid model) then data else object;
         model_name := replace_hyphens (apiID model);
         model_context := Some {| draftAndPublish := dap;
                                  apiEndpoint := info_pluralName model |};
         model_labelField :=
           match contentTypeSetting with
           | Some cts => cts_mainField cts
           | None => None
           end;
         model_fields := Some fields |}.

Definition toStackbitModels (models : list StrapiContentType)
  (contentTypeSettings : list StrapiContentTypeSetting) : M (list Model) :=
  mapM (toStackbitModel contentTypeSettings) models.

(** ** Composite ids ([strapi-content-source.ts]) *)

Definition separator : ascii := "#".

Definition ID_SEPARATOR : string := String separator EmptyString.

(** The composite id of [toStackbitDocuments]:
    [`${modelName}${ID_SEPARATOR}${sourceId}`]. *)
Definition encode (modelName sourceId : string) : string :=
  modelName +++ ID_SEPARATOR +++ sourceId.

(** The destructuring of [updateDocument]:
    [const [contentType, id] = compositeId.split(ID_SEPARATOR)].
    An element the array does not have reads as [undefined] ([None]). *)
Definition decode (compositeId : string) : option string * option string :=
  let pieces := split separator compositeId in
  (nth_error pieces 0, nth_error pieces 1).

Fixpoint split_at_first (sep : ascii) (s : string) : string * option string :=
  match s with
  | EmptyString => (EmptyString, None)
  | String c rest =>
      if Ascii.eqb c sep then (EmptyString, Some rest)
      else let (before, after) := split_at_first sep rest in
           (String c before, after)
  end.

(** Decoding in the words of the specification: a split on the first
    occurrence of the delimiter.  Compared with [decode] below. *)
Definition decode_at_first_occurrence (compositeId : string)
  : option string * option string :=
  let (modelName, sourceId) := split_at_first separator compositeId in
  (Some modelName, sourceId).

(** ** Documents ([@stackbit/types]) *)

Inductive RefType : Type := document | asset.

(** A document field.  The constant [localized: false] of list and model
    fields is left out.  [FieldAsDocumentField] is the model field itself,
    which the [default] branch of [toDocumentField] returns. *)
Inductive DocumentField : Type :=
| DocumentValueField (type : FieldType) (value : JsValue)
| DocumentReferenceField (refType : RefType) (refId : JsValue)
| DocumentListField (items : list DocumentField)
| DocumentModelField (modelName : option string)
                     (fields : list (string * DocumentField))
| FieldAsDocumentField (f : Field).

Definition DocumentFields : Type := list (string * DocumentField).

Inductive DocumentStatus : Type := published | added.

(** A mapped document (the constants [type: 'document'] and [context: {}]
    are left out). *)
Record Document : Type := {
  document_id : string;
  document_modelName : string;
  document_status : DocumentStatus;
  document_manageUrl : string;
  document_createdAt : JsValue;
  document_updatedAt : JsValue;
  document_fields : DocumentFields
}.

(** [modelField.type], [modelField.name], [modelField.items] on either kind
    of element of a model's field list.  A source attribute has no [name]
    and no [items]; its [type] is its tag. *)
Definition Field_type (f : Field) : option FieldType :=
  match f with
  | StackbitField p => field_type p
  | AttributeAsField a => FieldType_of_name (attr_type a)
  end.

Definition Field_name (f : Field) : option string :=
  match f with
  | StackbitField p => Some (field_name p)
  | AttributeAsField _ => None
  end.

Definition Field_items (f : Field) : option FieldSpecificProps :=
  match f with
  | StackbitField p => field_items p
  | AttributeAsField _ => None
  end.

(** [modelField.models[0]]; a source attribute has no [models]. *)
Definition Field_models_0 (f : Field) : M (option string) :=
  match f with
  | StackbitField p => ret (hd_error (field_models p))
  | AttributeAsField _ => throw TypeError
  end.

(** [`${name}`] for a possibly absent name. *)
Definition name_toString (name : option string) : string :=
  match name with
  | Some n => n
  | None => "undefined"
  end.

(** [model.fields?.find((field) => field.name === attributeName)]. *)
Definition find_field (model : Model) (attributeName : string) : option Field :=
  match model_fields model with
  | Some fields =>
      find (fun field => match Field_name field with
                         | Some n => n =? attributeName
                         | None => false
                         end) fields
  | None => None
  end.

(** ** Document mapping *)

Section DocumentMapping.

(** [stackbitCache.getModelByName]: the host's cache, [None] for
    [undefined] on either side. *)
Variable getModelByName : option string -> option Model.

Section Recursion.

(** The recursive call of [toFields] made from [toDocumentField] and from
    [toDocumentListFieldItems]. *)
Variable toFields : JsValue -> option Model -> M DocumentFields.

Definition toDocumentListFieldItemsWith
  (fieldSpecificProps : option FieldSpecificProps) (attributeValue : JsValue)
  : M (list DocumentField) :=
  match fieldSpecificProps with
  | None => throw TypeError
  | Some props =>
      match items_type props with
      | Fmodel =>
          Array_map attributeValue (fun v =>
            let modelName := hd_error (items_models props) in
            fields <- toFields v (getModelByName modelName) ;;
            ret (DocumentModelField modelName fields))
      | Freference =>
          data <- getProp attributeValue "data" ;;
          Array_map data (fun v =>
            match getModelByName (hd_error (items_models props)) with
            | None => throw TypeError
            | Some model =>
                id <- getProp v "id" ;;
                ret (DocumentReferenceField document
                       (JString (model_name model +++ ID_SEPARATOR +++ toString id)))
            end)
      | t =>
          console (console_error ("Unhandled type " +++ FieldType_name t)) []
      end
  end.

Definition toDocumentFieldWith (modelField : option Field) (attributeValue : JsValue)
  : M (option DocumentField) :=
  match modelField with
  | None => ret None
  | Some f =>
      match Field_type f with
      | Some ((Fstring | Furl | Fslug | Ftext | Fmarkdown | Fhtml | Fboolean
              | Fdate | Fdatetime | Fcolor | Fnumber | Fenum | Ffile | Fjson
              | Fstyle | FrichText) as t) =>
          ret (Some (DocumentValueField t attributeValue))
      | Some Fimage =>
          ret (if truthy attributeValue
               then Some (DocumentReferenceField asset attributeValue)
               else None)
      | Some Freference =>
          if truthy attributeValue then
            data <- getProp attributeValue "data" ;;
            if truthy data then
              id <- getProp data "id" ;;
              ret (Some (DocumentReferenceField document
                           (JString (name_toString (Field_name f)
                                     +++ ID_SEPARATOR +++ toString id))))
            else ret None
          else ret None
      | Some Flist =>
          items <- toDocumentListFieldItemsWith (Field_items f) attributeValue ;;
          ret (Some (DocumentListField items))
      | Some Fmodel =>
          modelName <- Field_models_0 f ;;
          fields <- toFields attributeValue (getModelByName modelName) ;;
          ret (Some (DocumentModelField modelName fields))
      | Some ((Fobject | Fcross_reference) as t) =>
          throw (Error ("field of type " +++ FieldType_name t +++ " not implemented"))
      | None => ret (Some (FieldAsDocumentField f))
      end
  end.

(** The callback of [reduce] in [toFields]. *)
Definition toFields_step (model : option Model) (attributes : DocumentFields)
  (entry : string * JsValue) : M DocumentFields :=
  let (attributeName, attributeValue) := entry in
  match model with
  | None => throw TypeError
  | Some m =>
      documentField <- toDocumentFieldWith (find_field m attributeName) attributeValue ;;
      ret (match documentField with
           | Some d => assign attributeName d attributes
           | None => attributes
           end)
  end.

End Recursion.

(** [toFields]; every nested call spends one unit of [fuel]: the nesting
    follows the cached models, which may refer to each other in a cycle. *)
Fixpoint toFields (fuel : nat) (documentAttributes : JsValue) (model : option Model)
  : M DocumentFields :=
  match fuel with
  | O => ([], OutOfFuel)
  | S fuel' =>
      entries <- Object_entries documentAttributes ;;
      reduceM (toFields_step (toFields fuel') model)
              (filter (fun entry => not_null (snd entry)) entries)
              []
  end.

Definition toDocumentField (fuel : nat) : option Field -> JsValue -> M (option DocumentField) :=
  toDocumentFieldWith (toFields fuel).

Definition toDocumentListFieldItems (fuel : nat)
  : option FieldSpecificProps -> JsValue -> M (list DocumentField) :=
  toDocumentListFieldItemsWith (toFields fuel).

(** The [status] of a mapped document. *)
Definition document_status_of (model : Model) (attributes : list (string * JsValue))
  : DocumentStatus :=
  if match model_context model with
     | Some context => truthy (draftAndPublish context)
     | None => false
     end
  then if truthy (prop "publishedAt" attributes) then published else added
  else published.

(** The callback of [documents.map] in [toStackbitDocuments]. *)
Definition toStackbitDocument (fuel : nat) (manageUrl : string) (doc : StrapiDocument)
  : M Document :=
  let modelName := replace_hyphens (doc_type doc) in
  let model := getModelByName (Some modelName) in
  status <- match model with
            | None => throw TypeError
            | Some m => ret (document_status_of m (doc_attributes doc))
            end ;;
  fields <- toFields fuel (JObject (doc_attributes doc)) model ;;
  ret {| document_id := encode (replace_hyphens (doc_type doc)) (decimal (doc_id doc));
         document_modelName := modelName;
         document_status := status;
         document_manageUrl :=
           manageUrl +++ "/collectionType/api::" +++ doc_type doc +++ "."
                     +++ doc_type doc +++ "/" +++ decimal (doc_id doc);
         document_createdAt := prop "createdAt" (doc_attributes doc);
         document_updatedAt := prop "updatedAt" (doc_attributes doc);
         document_fields := fields |}.

Definition toStackbitDocuments (fuel : nat) (documents : list StrapiDocument)
  (manageUrl : string) : M (list Document) :=
  mapM (toStackbitDocument fuel manageUrl) documents.

End DocumentMapping.

(** ** Write path *)

(** [UpdateOperationField], as the object the converter reads: its [type],
    its [value] and its [refId] ([JUndefined] when absent). *)
Record UpdateOperationField : Type := {
  uof_type : FieldType;
  uof_value : JsValue;
  uof_refId : JsValue
}.

(** An element of a [fieldPath]: a property name or an index. *)
Inductive FieldPathSegment : Type :=
| Key (name : string)
| Index (i : Z).

(** The property key [fieldPath[0]] becomes. *)
Definition first_segment (fieldPath : list FieldPathSegment) : string :=
  match fieldPath with
  | [] => "undefined"
  | Key name :: _ => name
  | Index i :: _ => decimal i
  end.

Inductive UpdateOperation : Type :=
| OpSet (field : UpdateOperationField) (fieldPath : list FieldPathSegment)
| OpUnset (fieldPath : list FieldPathSegment) (modelField : Field)
| OpOther (opType : string).

(** What [stackbitUpdatesToStrapiFields] returns: the [fields] object, or
    the model field that its [default] branch returns. *)
Inductive Payload : Type :=
| Fields (fields : list (string * JsValue))
| FieldAsPayload (f : Field).

Definition convertUpdateOperationFieldToStrapiDocumentField
  (updateOperationField : UpdateOperationField) : M JsValue :=
  match uof_type updateOperationField with
  | Fstring | Furl | Fslug | Ftext | Fmarkdown | Fhtml | Fboolean | Fdate
  | Fdatetime | Fcolor | Fnumber | Fenum | Ffile | Fjson | Fstyle | FrichText =>
      ret (uof_value updateOperationField)
  | Freference => ret (uof_refId updateOperationField)
  | (Fimage | Fobject | Fmodel | Fcross_reference | Flist) as t =>
      throw (Error ("updating field of type " +++ FieldType_name t +++ " not implemented"))
  end.

Definition stackbitUpdatedFieldToExampleFields
  (updateOperationFields : list (string * UpdateOperationField))
  : M (list (string * JsValue)) :=
  fields <- reduceM (fun fields entry =>
                       v <- convertUpdateOperationFieldToStrapiDocumentField (snd entry) ;;
                       ret (set_property (fst entry) v fields))
                    updateOperationFields empty_object ;;
  ret (own fields).

(** The loop of [stackbitUpdatesToStrapiFields], from the operations left
    and the [fields] object built so far; what is returned at the end is
    read through its own properties. *)
Fixpoint updates_loop (updateOperations : list UpdateOperation)
  (fields : PlainObject) : M Payload :=
  match updateOperations with
  | [] => ret (Fields (own fields))
  | OpSet field fieldPath :: rest =>
      v <- convertUpdateOperationFieldToStrapiDocumentField field ;;
      updates_loop rest (set_property (first_segment fieldPath) v fields)
  | OpUnset fieldPath modelField :: rest =>
      match Field_type modelField with
      | Some (Fstring | Furl | Fslug | Ftext | Fmarkdown | Fhtml | Fboolean
             | Fdate | Fdatetime | Fcolor | Fnumber | Fenum | Ffile | Fjson
             | Fstyle | FrichText | Fimage | Freference) =>
          updates_loop rest (set_property (first_segment fieldPath) JUndefined fields)
      | Some ((Fobject | Fmodel | Fcross_reference | Flist) as t) =>
          throw (Error ("updating field of type " +++ FieldType_name t
                        +++ " not implemented"))
      | None => ret (FieldAsPayload modelField)
      end
  | OpOther opType :: _ =>
      throw (Error ("'" +++ opType +++ "' operation not implemented"))
  end.

Definition stackbitUpdatesToStrapiFields (updateOperations : list UpdateOperation)
  : M Payload :=
  updates_loop updateOperations empty_object.

(** The request [updateDocument] hands to the API client:
    [PUT /api/{endpoint}/{id}] with body [{data: fields}]. *)
Record PutRequest : Type := {
  put_endpoint : option string;
  put_id : option string;
  put_fields : Payload
}.

Definition updateDocument (getModelByName : option string -> option Model)
  (documentId : string) (operations : list UpdateOperation) : M PutRequest :=
  fields <- stackbitUpdatesToStrapiFields operations ;;
  let (contentType, id) := decode documentId in
  match getModelByName contentType with
  | None => throw TypeError
  | Some model =>
      match model_context model with
      | None => throw TypeError
      | Some context =>
          ret {| put_endpoint := apiEndpoint context;
                 put_id := id;
                 put_fields := fields |}
      end
  end.

(** A cache holding a list of models, looked up by name. *)
Definition cache_of (models : list Model) (name : option string) : option Model :=
  match name with
  | Some n => find (fun m => model_name m =? n) models
  | None => None
  end.

(** ** Vocabulary of the statements *)

(** The tags the classifier has a case for. *)
Definition known_tags : list string :=
  scalar_cases ++ ["relation"; "component"; "media"].

(** The entries of an object that pass the [value !== null] filter of
    [toFields]. *)
Definition kept (entries : list (string * JsValue)) : list (string * JsValue) :=
  filter (fun entry => not_null (snd entry)) entries.

(** The field types whose document field is the pair of the type and the
    raw value. *)
Definition value_types : list FieldType :=
  [Fstring; Furl; Fslug; Ftext; Fmarkdown; Fhtml; Fboolean; Fdate; Fdatetime;
   Fcolor; Fnumber; Fenum; Ffile; Fjson; Fstyle; FrichText].

(** The field types an [unset] operation clears, and those it rejects. *)
Definition cleared_types : list FieldType := value_types ++ [Fimage; Freference].

Definition rejected_types : list FieldType :=
  [Fobject; Fmodel; Fcross_reference; Flist].

(** The composite types in the words of the specification. *)
Definition composite_types : list FieldType :=
  [Fimage; Fobject; Fmodel; Fcross_reference; Flist].

(** The operations that write the property [key] of the payload. *)
Definition writes (key : string) (op : UpdateOperation) : bool :=
  match op with
  | OpSet _ fieldPath | OpUnset fieldPath _ => first_segment fieldPath =? key
  | OpOther _ => false
  end.

(** A publish timestamp as the source sends it: [null], absent (which reads
    as [undefined]), or a non-empty string. *)
Definition publish_timestamp (v : JsValue) : Prop :=
  v = JNull \/ v = JUndefined \/ exists s, v = JString s /\ s <> "".

(** ** Sample schema, cache and documents *)

Definition string_attribute : AttributeModel :=
  {| attr_type := "string"; attr_required := Some true; attr_repeatable := None;
     attr_default := JUndefined; attr_component := None; attr_relation := None;
     attr_target := None |}.

Definition email_attribute : AttributeModel :=
  {| attr_type := "email"; attr_required := Some true; attr_repeatable := None;
     attr_default := JUndefined; attr_component := None; attr_relation := None;
     attr_target := None |}.

Definition contact_type : StrapiContentType :=
  {| apiID := "contact"; uid := "api::contact.contact";
     attributes := [("address", email_attribute)];
     options := JObject [("draftAndPublish", JBool false)];
     info_pluralName := Some "contacts" |}.

Definition person_type : StrapiContentType :=
  {| apiID := "person"; uid := "api::person.person";
     attributes := [("name", string_attribute); ("address", email_attribute);
                    ("nickname", string_attribute)];
     options := JObject [("draftAndPublish", JBool true)];
     info_pluralName := Some "people" |}.

Definition seo_component : StrapiContentType :=
  {| apiID := "seo"; uid := "shared.seo";
     attributes := [("title", string_attribute)];
     options := JObject [];
     info_pluralName := None |}.

Definition seo_type : StrapiContentType :=
  {| apiID := "seo"; uid := "api::seo.seo";
     attributes := [("title", string_attribute)];
     options := JObject [("draftAndPublish", JBool false)];
     info_pluralName := Some "seos" |}.

Definition blog_post_type : StrapiContentType :=
  {| apiID := "blog-post"; uid := "api::blog-post.blog-post";
     attributes := [("title", string_attribute)];
     options := JObject [("draftAndPublish", JBool true)];
     info_pluralName := Some "blog-posts" |}.

Definition sample_field (type : FieldType) (name : string) : Field :=
  StackbitField (plain_field (Some type) name).

Definition tag_model : Model :=
  {| model_type := data; model_name := "tag";
     model_context := Some {| draftAndPublish := JBool false;
                              apiEndpoint := Some "tags" |};
     model_labelField := None;
     model_fields := Some [sample_field Fstring "label"] |}.

Definition tags_field : FieldProps :=
  {| field_type := Some Flist; field_name := "tags"; field_required := None;
     field_default := JUndefined; field_models := [];
     field_items := Some {| items_type := Freference; items_models := ["tag"] |} |}.

Definition author_field : FieldProps :=
  {| field_type := Some Freference; field_name := "author"; field_required := None;
     field_default := JUndefined; field_models := ["user"]; field_items := None |}.

Definition post_model : Model :=
  {| model_type := data; model_name := "post";
     model_context := Some {| draftAndPublish := JBool true;
                              apiEndpoint := Some "posts" |};
     model_labelField := Some "title";
     model_fields := Some [sample_field Fstring "title";
                           sample_field Fstring "subtitle";
                           StackbitField tags_field;
                           StackbitField author_field] |}.

Definition sample_cache : option string -> option Model :=
  cache_of [tag_model; post_model].

Definition author_value : list (string * JsValue) :=
  [("data", JObject [("id", JNumber 5)])].

Definition tags_value : list (string * JsValue) :=
  [("data", JArray [JObject [("id", JNumber 3)]; JObject [("id", JNumber 7)]])].

(** A draft: its publish timestamp is [null]. *)
Definition draft_post : StrapiDocument :=
  {| doc_id := 12; doc_type := "post";
     doc_attributes := [("title", JString "Hello"); ("publishedAt", JNull);
                        ("views", JNumber 40)] |}.

(** A document whose publish timestamp is the empty string. *)
Definition blank_timestamp_post : StrapiDocument :=
  {| doc_id := 13; doc_type := "post";
     doc_attributes := [("title", JString "Hello"); ("publishedAt", JString "")] |}.

(** A document of a type the cache has no model for. *)
Definition orphan_document : StrapiDocument :=
  {| doc_id := 1; doc_type := "event"; doc_attributes := [("title", JString "Party")] |}.

Definition sample_url : string := "http://localhost:1337/admin/content-manager".

Definition tags_relation : AttributeModel :=
  {| attr_type := "relation"; attr_required := None; attr_repeatable := None;
     attr_default := JUndefined; attr_component := None;
     attr_relation := Some "manyToMany"; attr_target := Some "api::tag.tag" |}.

Definition labels_field : FieldProps :=
  {| field_type := Some Flist; field_name := "labels"; field_required := None;
     field_default := JUndefined; field_models := [];
     field_items := Some {| items_type := Fmodel; items_models := ["tag"] |} |}.

(** ** Content source ([strapi-content-source.ts]) *)

(** [ContentSourceOptions], as the constructor receives it: a property that
    is absent, or an environment variable that is not set, is [None]. *)
Record ContentSourceOptions : Type := {
  opt_url : option string;
  opt_token : option string;
  opt_jwt : option string
}.

(** The fields the constructor of [StrapiContentSource] sets. *)
Record StrapiContentSource : Type := {
  strapiUrl : string;
  source_token : string;
  source_jwt : string;
  manageUrl : string
}.

(** [new StrapiContentSource({url, token, jwt})]. *)
Definition StrapiContentSource_new (o : ContentSourceOptions) : M StrapiContentSource :=
  match opt_token o with
  | None | Some EmptyString => throw (Error "StrapiContentSource requires token")
  | Some token =>
      match opt_jwt o with
      | None | Some EmptyString => throw (Error "StrapiContentSource requires jwt")
      | Some jwt =>
          let url := match opt_url o with
                     | Some url => url
                     | None => "http://localhost:1337"
                     end in
          ret {| strapiUrl := url;
                 source_token := token;
                 source_jwt := jwt;
                 manageUrl := url +++ "/admin/content-manager" |}
      end
  end.

Definition getProjectId (this : StrapiContentSource) : string := strapiUrl this.

Definition getProjectManageUrl (this : StrapiContentSource) : string := manageUrl this.

(** [getDocuments], from the documents the API client fetched. *)
Definition getDocuments (getModelByName : option string -> option Model) (fuel : nat)
  (this : StrapiContentSource) (fetched : list StrapiDocument) : M (list Document) :=
  toStackbitDocuments getModelByName fuel fetched (manageUrl this).

(** ** API client ([strapi-api-client.ts]) *)

Record ExampleWebhook : Type := { webhook_name : string }.

(** [getWebhook] and [createWebhook] on the client's [webhooks] array. *)
Definition getWebhook (webhooks : list ExampleWebhook) (name : string)
  : option ExampleWebhook :=
  find (fun webhook => webhook_name webhook =? name) webhooks.

Definition createWebhook (webhooks : list ExampleWebhook) (name : string)
  : ExampleWebhook * list ExampleWebhook :=
  let webhook := {| webhook_name := name |} in
  (webhook, webhooks ++ [webhook]).

(** [initWebhook] of the content source: the lines it hands to
    [logger.info] and the client's [webhooks] afterwards.  A webhook object
    is truthy, so the two tests on it succeed. *)
Definition initWebhook (webhookUrl : option string) (webhooks : list ExampleWebhook)
  : list string * list ExampleWebhook :=
  match webhookUrl with
  | None | Some EmptyString => ([], webhooks)
  | Some _ =>
      match getWebhook webhooks "stackbit-content-source" with
      | Some _ =>
          (["checking if stackbit webhook exists";
            "got a stackbit-content-source webhook"], webhooks)
      | None =>
          let (_, webhooks') := createWebhook webhooks "stackbit-content-source" in
          (["checking if stackbit webhook exists";
            "no webhook 'stackbit-content-source' was found, creating a new webhook";
            "got a stackbit-content-source webhook"], webhooks')
      end
  end.

(** The body of one response of the documents endpoint: [data] and
    [meta.pagination.pageCount]. *)
Record PageResult : Type := {
  page_data : list StrapiDocument;
  page_pageCount : Z
}.

(** [{...document, type: model.apiID}]. *)
Definition with_type (apiID : string) (doc : StrapiDocument) : StrapiDocument :=
  {| doc_id := doc_id doc; doc_type := apiID; doc_attributes := doc_attributes doc |}.

(** The [for] loop of [getDocumentsOfModel].  [fetch page] is the parsed
    response to the request for that page (every request is taken to be
    answered by a well-formed body); a unit of [fuel] is spent per
    iteration, since the bound of the loop is set by each response. *)
Fixpoint pages_loop (fuel : nat) (fetch : Z -> PageResult) (apiID singularName : string)
  (page nbPages : Z) (documents : list StrapiDocument) : M (list StrapiDocument) :=
  match fuel with
  | O => ([], OutOfFuel)
  | S fuel' =>
      if (page <=? nbPages)%Z then
        _ <- console (console_log ("Downloading page " +++ decimal page +++ "/"
                                   +++ decimal nbPages +++ " for " +++ singularName)) tt ;;
        let result := fetch page in
        let items := map (with_type apiID) (page_data result) in
        pages_loop fuel' fetch apiID singularName (page + 1) (page_pageCount result)
                   (documents ++ items)
      else ret documents
  end.

(** [getDocumentsOfModel]; [singularName] is [model.info.singularName]. *)
Definition getDocumentsOfModel (fuel : nat) (fetch : Z -> PageResult)
  (model : StrapiContentType) (singularName : string) : M (list StrapiDocument) :=
  documents <- pages_loop fuel fetch (apiID model) singularName 1 1 [] ;;
  console (console_log ("Found " +++ decimal (Z.of_nat (length documents)) +++ " "
                        +++ name_toString (info_pluralName model)))
          documents.

(** ** Vocabulary of the further statements *)

Definition nullish (v : JsValue) : bool :=
  match v with
  | JUndefined | JNull => true
  | _ => false
  end.

(** The attributes the classifier maps without throwing: a relation needs a
    target with a second dot-separated piece, a component needs its
    [component]. *)
Definition well_formed_attribute (attribute : AttributeModel) : bool :=
  if attr_type attribute =? "relation" then
    match attr_target attribute with
    | Some target =>
        match nth_error (split "." target) 1 with
        | Some _ => true
        | None => false
        end
    | None => false
    end
  else if attr_type attribute =? "component" then
    match attr_component attribute with
    | Some _ => true
    | None => false
    end
  else true.

Definition well_formed_model (model : StrapiContentType) : bool :=
  negb (nullish (options model))
  && forallb (fun entry => well_formed_attribute (snd entry)) (attributes model).

Fixpoint some_char (p : ascii -> bool) (s : string) : bool :=
  match s with
  | EmptyString => false
  | String c rest => p c || some_char p rest
  end.

(** Whether a relation is mapped to a list. *)
Definition to_many (relation : option string) : bool :=
  match relation with
  | Some r => (r =? "oneToMany") || (r =? "manyToMany")
  | None => false
  end.

(** The field a relation or a component becomes, from its name, whether it
    is a list, the type of the target and the target's model name. *)
Definition target_field (name : string) (many : bool) (type : FieldType)
  (target : string) : Field :=
  StackbitField
    (if many
     then {| field_type := Some Flist; field_name := name; field_required := None;
             field_default := JUndefined; field_models := [];
             field_items := Some {| items_type := type; items_models := [target] |} |}
     else {| field_type := Some type; field_name := name; field_required := None;
             field_default := JUndefined; field_models := [target];
             field_items := None |}).

(** The model names a field makes [toFields] recur on. *)
Definition nested_targets (f : Field) : list (option string) :=
  match f with
  | StackbitField p =>
      match field_type p with
      | Some Fmodel => [hd_error (field_models p)]
      | Some Flist =>
          match field_items p with
          | Some items =>
              match items_type items with
              | Fmodel => [hd_error (items_models items)]
              | _ => []
              end
          | None => []
          end
      | _ => []
      end
  | AttributeAsField _ => []
  end.

(** The recursion budget that suffices for a model, from a rank of the
    cached models. *)
Definition budget (rank : Model -> nat) (model : option Model) : nat :=
  match model with
  | Some m => S (rank m)
  | None => O
  end.

(** A field path cut after its first segment. *)
Definition first_segment_only (fieldPath : list FieldPathSegment)
  : list FieldPathSegment :=
  match fieldPath with
  | [] => []
  | segment :: _ => [segment]
  end.

Definition cut_path (op : UpdateOperation) : UpdateOperation :=
  match op with
  | OpSet field fieldPath => OpSet field (first_segment_only fieldPath)
  | OpUnset fieldPath modelField => OpUnset (first_segment_only fieldPath) modelField
  | OpOther opType => OpOther opType
  end.

(** The field types [convertUpdateOperationFieldToStrapiDocumentField]
    converts, and what it returns for them. *)
Definition convertible_types : list FieldType := value_types ++ [Freference].

Definition converted (field : UpdateOperationField) : JsValue :=
  match uof_type field with
  | Freference => uof_refId field
  | _ => uof_value field
  end.

Definition set_error (t : FieldType) : Exception :=
  Error ("updating field of type " +++ FieldType_name t +++ " not implemented").

(** ** Further samples *)

Definition float_attribute : AttributeModel :=
  {| attr_type := "float"; attr_required := None; attr_repeatable := None;
     attr_default := JUndefined; attr_component := None; attr_relation := None;
     attr_target := None |}.

Definition seo_attribute : AttributeModel :=
  {| attr_type := "component"; attr_required := None; attr_repeatable := None;
     attr_default := JUndefined; attr_component := Some "shared.seo-meta";
     attr_relation := None; attr_target := None |}.

Definition article_type : StrapiContentType :=
  {| apiID := "article"; uid := "api::article.article";
     attributes := [("title", string_attribute); ("tags", tags_relation);
                    ("seo", seo_attribute); ("address", email_attribute)];
     options := JObject [("draftAndPublish", JBool true)];
     info_pluralName := Some "articles" |}.

Definition two_pages (page : Z) : PageResult :=
  {| page_data := [{| doc_id := page; doc_type := ""; doc_attributes := [] |}];
     page_pageCount := 2 |}.

Definition owner_relation : AttributeModel :=
  {| attr_type := "relation"; attr_required := None; attr_repeatable := None;
     attr_default := JUndefined; attr_component := None;
     attr_relation := Some "oneToOne"; attr_target := Some "user" |}.

(** A content type whose relation has a target without a dot. *)
Definition broken_type : StrapiContentType :=
  {| apiID := "broken"; uid := "api::broken.broken";
     attributes := [("owner", owner_relation)];
     options := JObject []; info_pluralName := Some "brokens" |}.

(** A list of strings. *)
Definition keywords_items : FieldSpecificProps :=
  {| items_type := Fstring; items_models := [] |}.

Definition keywords_field : FieldProps :=
  {| field_type := Some Flist; field_name := "keywords"; field_required := None;
     field_default := JUndefined; field_models := [];
     field_items := Some keywords_items |}.

(** A computation that does not exhaust the recursion budget, and one whose
    outcome, once it does not exhaust the budget, is that of another. *)
Definition finishes {A : Type} (m : M A) : Prop := snd m <> OutOfFuel.

Definition settles_as {A : Type} (m1 m2 : M A) : Prop := finishes m1 -> m1 = m2.

(** A field that makes [toDocumentField] read inside the attribute value: a
    model, or a list of models or of references. *)
Definition reads_inside (p : FieldProps) : bool :=
  match field_type p with
  | Some Fmodel => true
  | Some Flist =>
      match field_items p with
      | Some items =>
          match items_type items with
          | Fmodel | Freference => true
          | _ => false
          end
      | None => false
      end
  | _ => false
  end.

Definition seo_field : FieldProps :=
  {| field_type := Some Fmodel; field_name := "seo"; field_required := None;
     field_default := JUndefined; field_models := ["tag"]; field_items := None |}.

Definition banner_field : FieldProps :=
  {| field_type := Some Fmodel; field_name := "banner"; field_required := None;
     field_default := JUndefined; field_models := ["banner"]; field_items := None |}.

(** A model with a component, a list of components, an object field and a
    component whose model the caches below do not hold. *)
Definition landing_model : Model :=
  {| model_type := data; model_name := "landing";
     model_context := None;
     model_labelField := None;
     model_fields := Some [sample_field Fstring "title";
                           StackbitField seo_field;
                           StackbitField labels_field;
                           sample_field Fobject "legacy";
                           StackbitField banner_field] |}.

Definition landing_cache : option string -> option Model :=
  cache_of [tag_model; landing_model].

(** A rank for [landing_cache]: the landing page above its components. *)
Definition landing_rank (model : Model) : nat :=
  if model_name model =? "landing" then 1 else 0.

Definition landing_page : StrapiDocument :=
  {| doc_id := 7; doc_type := "landing";
     doc_attributes := [("title", JString "Home");
                        ("seo", JObject [("label", JString "home")]);
                        ("labels", JArray [JObject [("label", JString "a")]])] |}.

Definition loop_field : FieldProps :=
  {| field_type := Some Fmodel; field_name := "0"; field_required := None;
     field_default := JUndefined; field_models := ["loop"]; field_items := None |}.

(** A model whose field ["0"] is a component of the model itself. *)
Definition cyclic_model : Model :=
  {| model_type := object; model_name := "loop";
     model_context := None;
     model_labelField := None;
     model_fields := Some [StackbitField loop_field] |}.

Definition title_update : UpdateOperationField :=
  {| uof_type := Fstring; uof_value := JString "Hello"; uof_refId := JUndefined |}.

Definition author_update : UpdateOperationField :=
  {| uof_type := Freference; uof_value := JUndefined; uof_refId := JString "user#5" |}.

Definition cover_update : UpdateOperationField :=
  {| uof_type := Fimage; uof_value := JUndefined; uof_refId := JString "asset-1" |}.

(** The field schema mapping builds for [float_attribute] under the name
    [ratio]. *)
Definition ratio_field : Field :=
  StackbitField
    {| field_type := None; field_name := "ratio"; field_required := Some false;
       field_default := JUndefined; field_models := []; field_items := None |}.

(** [k] consecutive page numbers from [page] on. *)
Fixpoint pages_from (page : Z) (k : nat) : list Z :=
  match k with
  | O => []
  | S k' => page :: pages_from (page + 1) k'
  end.

(** The documents of the given pages, each with the model's [apiID] as its
    type. *)
Definition documents_of_pages (fetch : Z -> PageResult) (apiID : string)
  (pages : list Z) : list StrapiDocument :=
  flat_map (fun page => map (with_type apiID) (page_data (fetch page))) pages.

(** An optional string that is neither absent nor empty. *)
Definition given (s : option string) : bool :=
  match s with
  | None | Some EmptyString => false
  | Some _ => true
  end.

Definition stackbit_webhook : ExampleWebhook :=
  {| webhook_name := "stackbit-content-source" |}.

Definition local_options : ContentSourceOptions :=
  {| opt_url := None; opt_token := Some "t0ken"; opt_jwt := Some "jwt" |}.

Definition local_source : StrapiContentSource :=
  {| strapiUrl := "http://localhost:1337"; source_token := "t0ken";
     source_jwt := "jwt";
     manageUrl := "http://localhost:1337/admin/content-manager" |}.

Definition initial_fields : list (string * UpdateOperationField) :=
  [("title", title_update); ("author", author_update)].

(** One step of the payload of a new document. *)
Definition put_converted (fields : PlainObject)
  (entry : string * UpdateOperationField) : PlainObject :=
  set_property (fst entry) (converted (snd entry)) fields.

(** A model with a field named [__proto__]. *)
Definition proto_model : Model :=
  {| model_type := data; model_name := "page";
     model_context := None;
     model_labelField := None;
     model_fields := Some [sample_field Fstring "__proto__";
                           sample_field Fstring "title"] |}.

Definition null_update : UpdateOperationField :=
  {| uof_type := Fstring; uof_value := JNull; uof_refId := JUndefined |}.


Definition anonymous_options : ContentSourceOptions :=
  {| opt_url := Some "https://cms.example.org"; opt_token := Some "";
     opt_jwt := None |}.

(** * Properties *)

(** ** The monad *)

Section MonadLaws.

Context {A B C : Type}.

Lemma bind_ret_l (a : A) (f : A -> M B) : bind (ret a) f = f a.
Proof. unfold bind, ret. destruct (f a); reflexivity. Qed.

Lemma bind_ret_r (m : M A) : bind m ret = m.
Proof.
  destruct m as [out [a | e |]]; simpl; try reflexivity.
  now rewrite app_nil_r.
Qed.

Lemma bind_assoc (m : M A) (f : A -> M B) (g : B -> M C) :
  bind (bind m f) g = bind m (fun a => bind (f a) g).
Proof.
  destruct m as [out [a | e |]]; simpl; try reflexivity.
  destruct (f a) as [out' [b | e |]]; simpl; try reflexivity.
  destruct (g b) as [out'' r]. now rewrite app_assoc.
Qed.

Lemma bind_Normal (m : M A) (f : A -> M B) out b :
  bind m f = (out, Normal b) ->
  exists out1 a out2,
    m = (out1, Normal a) /\ f a = (out2, Normal b) /\ out = out1 ++ out2.
Proof.
  destruct m as [out1 [a | e |]]; simpl; try discriminate.
  destruct (f a) as [out2 r] eqn:E. intros H. inversion H; subst.
  now exists out1, a, out2.
Qed.

Lemma bind_ext (m : M A) (f g : A -> M B) :
  (forall a, f a = g a) -> bind m f = bind m g.
Proof.
  intros H. destruct m as [out [a | e |]]; simpl; try reflexivity.
  now rewrite H.
Qed.

Lemma bind_step (m : M A) (f : A -> M B) out a :
  m = (out, Normal a) ->
  bind m f = (out ++ fst (f a), snd (f a)).
Proof. intros ->. simpl. now destruct (f a). Qed.

End MonadLaws.

Lemma mapM_app {A B : Type} (f : A -> M B) (l1 l2 : list A) :
  mapM f (l1 ++ l2) =
  (ys1 <- mapM f l1 ;; ys2 <- mapM f l2 ;; ret (ys1 ++ ys2)).
Proof.
  induction l1 as [| x l1 IH]; cbn [app mapM].
  - rewrite bind_ret_l. cbn [app]. now rewrite bind_ret_r.
  - rewrite IH.
    destruct (f x) as [out [y | e |]]; simpl; try reflexivity.
    destruct (mapM f l1) as [out1 [ys1 | e |]]; simpl; try reflexivity.
    destruct (mapM f l2) as [out2 [ys2 | e |]]; simpl;
      now rewrite ?app_nil_r, ?app_assoc.
Qed.

Lemma mapM_Normal_length {A B : Type} (f : A -> M B) (l : list A) out ys :
  mapM f l = (out, Normal ys) -> length ys = length l.
Proof.
  revert out ys. induction l as [| x l IH]; simpl; intros out ys H.
  - inversion H. reflexivity.
  - apply bind_Normal in H as (o1 & y & o2 & _ & H & _).
    apply bind_Normal in H as (o3 & ys' & o4 & H & R & _).
    inversion R; subst. simpl. f_equal. eauto.
Qed.

Lemma reduceM_app {A B : Type} (f : B -> A -> M B) (l1 l2 : list A) (acc : B) :
  reduceM f (l1 ++ l2) acc = (acc' <- reduceM f l1 acc ;; reduceM f l2 acc').
Proof.
  revert acc. induction l1 as [| x l1 IH]; intros acc; cbn [app reduceM].
  - now rewrite bind_ret_l.
  - rewrite bind_assoc.
    destruct (f acc x) as [out [a | e |]]; simpl; try reflexivity.
    now rewrite IH.
Qed.

(** ** Objects *)

Lemma lookup_assign_own_same {A : Type} (key : string) (v : A) entries :
  lookup key (assign_own key v entries) = Some v.
Proof.
  induction entries as [| [k w] rest IH]; simpl.
  - now rewrite String.eqb_refl.
  - destruct (k =? key) eqn:E; simpl; rewrite E; auto.
Qed.

Lemma lookup_assign_own_other {A : Type} (key key' : string) (v : A) entries :
  key' <> key ->
  lookup key (assign_own key' v entries) = lookup key entries.
Proof.
  intros Hne.
  induction entries as [| [k w] rest IH]; simpl.
  - destruct (key' =? key) eqn:E; [apply String.eqb_eq in E; contradiction | reflexivity].
  - destruct (k =? key') eqn:E; simpl.
    + apply String.eqb_eq in E; subst k.
      destruct (key' =? key) eqn:E'; [apply String.eqb_eq in E'; contradiction | reflexivity].
    + now rewrite IH.
Qed.

Lemma In_assign_own_key {A : Type} (key : string) (v : A) entries name :
  In name (map fst (assign_own key v entries)) <->
  name = key \/ In name (map fst entries).
Proof.
  induction entries as [| [k w] rest IH]; simpl.
  - intuition.
  - destruct (k =? key) eqn:E; simpl.
    + apply String.eqb_eq in E. subst. intuition.
    + rewrite IH. intuition.
Qed.

Lemma NoDup_assign_own {A : Type} (key : string) (v : A) entries :
  NoDup (map fst entries) -> NoDup (map fst (assign_own key v entries)).
Proof.
  induction entries as [| [k w] rest IH]; simpl; intros H.
  - repeat constructor. intros [].
  - inversion H as [| ? ? Hnotin Hnd]; subst.
    destruct (k =? key) eqn:E; simpl.
    + now constructor.
    + constructor; [| auto].
      rewrite In_assign_own_key. intros [-> | Hin]; [| contradiction].
      now rewrite String.eqb_refl in E.
Qed.

Lemma assign_proto {A : Type} (v : A) entries :
  assign "__proto__" v entries = entries.
Proof. reflexivity. Qed.

Lemma assign_other {A : Type} (key : string) (v : A) entries :
  key <> "__proto__" -> assign key v entries = assign_own key v entries.
Proof.
  intros H. unfold assign. apply String.eqb_neq in H. now rewrite H.
Qed.

Lemma lookup_assign_same {A : Type} (key : string) (v : A) entries :
  key <> "__proto__" ->
  lookup key (assign key v entries) = Some v.
Proof.
  intros H. rewrite (assign_other _ _ _ H). apply lookup_assign_own_same.
Qed.

Lemma lookup_assign_other {A : Type} (key key' : string) (v : A) entries :
  key' <> key ->
  lookup key (assign key' v entries) = lookup key entries.
Proof.
  intros Hne. unfold assign. destruct (key' =? "__proto__"); [reflexivity |].
  now apply lookup_assign_own_other.
Qed.

Lemma In_assign_key {A : Type} (key : string) (v : A) entries name :
  In name (map fst (assign key v entries)) ->
  name = key \/ In name (map fst entries).
Proof.
  unfold assign. destruct (key =? "__proto__"); [now right |].
  apply In_assign_own_key.
Qed.

Lemma NoDup_assign {A : Type} (key : string) (v : A) entries :
  NoDup (map fst entries) -> NoDup (map fst (assign key v entries)).
Proof.
  unfold assign. destruct (key =? "__proto__"); [auto |].
  apply NoDup_assign_own.
Qed.

(** An assignment keeps the own properties as they are, or writes the key
    among them. *)
Lemma own_set_property (key : string) (v : JsValue) (o : PlainObject) :
  (key = "__proto__" /\ own (set_property key v o) = own o) \/
  own (set_property key v o) = assign_own key v (own o).
Proof.
  unfold set_property.
  destruct (key =? "__proto__") eqn:E; simpl; [| now right].
  destruct (negb (has_own key o) && reaches_accessor (prototype o)); simpl;
    [| now right].
  left. apply String.eqb_eq in E. auto.
Qed.

Lemma set_property_named (key : string) (v : JsValue) (o : PlainObject) :
  key <> "__proto__" ->
  set_property key v o =
  {| own := assign_own key v (own o); prototype := prototype o |}.
Proof.
  intros H. unfold set_property. apply String.eqb_neq in H. now rewrite H.
Qed.

Lemma lookup_set_same (key : string) (v : JsValue) (o : PlainObject) :
  key <> "__proto__" ->
  lookup key (own (set_property key v o)) = Some v.
Proof.
  intros H. rewrite (set_property_named _ _ _ H). apply lookup_assign_own_same.
Qed.

Lemma lookup_set_other (key key' : string) (v : JsValue) (o : PlainObject) :
  key' <> key ->
  lookup key (own (set_property key' v o)) = lookup key (own o).
Proof.
  intros Hne. destruct (own_set_property key' v o) as [[_ ->] | ->];
    [reflexivity | now apply lookup_assign_own_other].
Qed.

Lemma lookup_set_present (key key' : string) (v : JsValue) (o : PlainObject) :
  lookup key (own o) <> None -> lookup key (own (set_property key' v o)) <> None.
Proof.
  intros H. destruct (string_dec key' key) as [-> | Hne].
  - destruct (own_set_property key v o) as [[_ ->] | ->]; [exact H |].
    now rewrite lookup_assign_own_same.
  - now rewrite lookup_set_other.
Qed.

Lemma In_set_key (key : string) (v : JsValue) (o : PlainObject) name :
  In name (map fst (own (set_property key v o))) ->
  name = key \/ In name (map fst (own o)).
Proof.
  destruct (own_set_property key v o) as [[_ ->] | ->]; [now right |].
  apply In_assign_own_key.
Qed.

Lemma NoDup_set (key : string) (v : JsValue) (o : PlainObject) :
  NoDup (map fst (own o)) -> NoDup (map fst (own (set_property key v o))).
Proof.
  destruct (own_set_property key v o) as [[_ ->] | ->]; [auto |].
  apply NoDup_assign_own.
Qed.

(** ** Strings *)

Lemma split_absent (sep : ascii) (s : string) :
  occurs sep s = false -> split sep s = [s].
Proof.
  induction s as [| c s IH]; simpl; intros H; [reflexivity |].
  apply orb_false_iff in H as [Hc Hs].
  rewrite Hc, (IH Hs). reflexivity.
Qed.

Lemma split_append (sep : ascii) (s rest : string) :
  occurs sep s = false ->
  split sep (s +++ String sep rest) = s :: split sep rest.
Proof.
  induction s as [| c s IH]; simpl; intros H.
  - now rewrite Ascii.eqb_refl.
  - apply orb_false_iff in H as [Hc Hs].
    rewrite Hc, (IH Hs). reflexivity.
Qed.

Lemma split_at_first_append (sep : ascii) (s rest : string) :
  occurs sep s = false ->
  split_at_first sep (s +++ String sep rest) = (s, Some rest).
Proof.
  induction s as [| c s IH]; simpl; intros H.
  - now rewrite Ascii.eqb_refl.
  - apply orb_false_iff in H as [Hc Hs].
    rewrite Hc, (IH Hs). reflexivity.
Qed.

Lemma replace_hyphens_injective (s1 s2 : string) :
  occurs "_" s1 = false -> occurs "_" s2 = false ->
  replace_hyphens s1 = replace_hyphens s2 -> s1 = s2.
Proof.
  revert s2. induction s1 as [| c1 s1 IH]; intros [| c2 s2]; simpl;
    try discriminate; auto.
  intros H1 H2 H.
  apply orb_false_iff in H1 as [Hc1 Hs1].
  apply orb_false_iff in H2 as [Hc2 Hs2].
  injection H as Hc Hs. f_equal; [| now apply IH].
  destruct (Ascii.eqb c1 "-") eqn:E1; destruct (Ascii.eqb c2 "-") eqn:E2.
  - apply Ascii.eqb_eq in E1, E2. congruence.
  - subst c2. now rewrite Ascii.eqb_refl in Hc2.
  - subst c1. now rewrite Ascii.eqb_refl in Hc1.
  - assumption.
Qed.

(** ** Composite ids *)

(** Beyond the ids that document mapping builds: [decode] splits on every
    occurrence of the separator, so on ["a#b#c"], whose source id would hold
    a separator, it returns the source id ["b"], where a split on the first
    occurrence returns ["b#c"]. *)
Lemma decode_differs_from_first_occurrence :
  decode "a#b#c" = (Some "a", Some "b") /\
  decode_at_first_occurrence "a#b#c" = (Some "a", Some "b#c") /\
  decode "a#b#c" <> decode_at_first_occurrence "a#b#c".
Proof. repeat split; discriminate. Qed.

(** C2: [encode] is the concatenation of the model name, the separator and
    the source id; for a model name and a source id without separator,
    [decode] of the encoded id returns exactly that pair and is the split
    on the first occurrence of the separator.  (After a separator-free
    model name [decode] returns, in general, the part of the rest that
    precedes the next separator.) *)
Theorem decode_encode (m id : string) :
  occurs separator m = false ->
  occurs separator id = false ->
  encode m id = m +++ "#" +++ id /\
  decode (encode m id) = (Some m, Some id) /\
  decode (encode m id) = decode_at_first_occurrence (encode m id) /\
  forall rest, decode (encode m rest) = (Some m, hd_error (split separator rest)).
Proof.
  intros Hm Hid.
  assert (G : forall rest,
             decode (encode m rest) = (Some m, hd_error (split separator rest))).
  { intros rest. unfold decode, encode, ID_SEPARATOR. simpl String.append.
    rewrite (split_append separator m rest Hm). simpl.
    now destruct (split separator rest). }
  repeat split; auto.
  - rewrite G, (split_absent _ _ Hid). reflexivity.
  - rewrite G, (split_absent _ _ Hid).
    unfold decode_at_first_occurrence, encode, ID_SEPARATOR. simpl String.append.
    now rewrite (split_at_first_append separator m id Hm).
Qed.

Lemma decode_encode_witness :
  encode "post" "12" = "post#12" /\
  decode (encode "post" "12") = (Some "post", Some "12") /\
  decode (encode "post" "12") = decode_at_first_occurrence (encode "post" "12") /\
  forall rest, decode (encode "post" rest) = (Some "post", hd_error (split separator rest)).
Proof. apply (decode_encode "post" "12"); reflexivity. Defined.

(** ** Schema mapping *)

(** The table has an entry for every tag of the scalar case group but
    [float]. *)
Lemma typeMapping_defined (tag : string) :
  In tag scalar_cases -> tag <> "float" -> exists t, typeMapping tag = Some t.
Proof.
  unfold scalar_cases. simpl. intros H Hf.
  repeat (destruct H as [<- | H]; [try contradiction; eexists; reflexivity |]).
  contradiction.
Qed.

(** For every tag of the scalar case group the field takes its type from
    the table, [required] coerced to a boolean, and [default] as it is. *)
Lemma scalar_attribute_field (attributeName : string) (attribute : AttributeModel) :
  In (attr_type attribute) scalar_cases ->
  toStackbitField (attributeName, attribute) =
  ret (StackbitField
         {| field_type := typeMapping (attr_type attribute);
            field_name := attributeName;
            field_required := Some (double_negation (attr_required attribute));
            field_default := attr_default attribute;
            field_models := [];
            field_items := None |}).
Proof.
  intros H. unfold toStackbitField.
  replace (includes scalar_cases (attr_type attribute)) with true; [reflexivity |].
  symmetry. apply existsb_exists. exists (attr_type attribute).
  split; [assumption | apply String.eqb_refl].
Qed.

(** C3: the classifier at a [float] attribute.  The case group lists
    [float], the table has no [float] key: the field's [type] is
    [undefined]. *)
Theorem float_attribute_type_undefined
  (attributeName : string) (required repeatable : option bool) (default : JsValue)
  (component relation target : option string) :
  typeMapping "float" = None /\
  toStackbitField
    (attributeName,
     {| attr_type := "float"; attr_required := required;
        attr_repeatable := repeatable; attr_default := default;
        attr_component := component; attr_relation := relation;
        attr_target := target |}) =
  ([], Normal (StackbitField
                 {| field_type := None;
                    field_name := attributeName;
                    field_required := Some (double_negation required);
                    field_default := default;
                    field_models := [];
                    field_items := None |})).
Proof. split; reflexivity. Qed.

Lemma unknown_attribute_field (attributeName : string) (attribute : AttributeModel) :
  includes known_tags (attr_type attribute) = false ->
  toStackbitField (attributeName, attribute) =
  ([console_log ("Unknown attribute type: " +++ attr_type attribute)],
   Normal (AttributeAsField attribute)).
Proof.
  intros H. unfold includes, known_tags, scalar_cases in H. simpl in H.
  repeat match type of H with
         | _ || _ = false => let H1 := fresh "E" in
                             apply orb_false_iff in H as [H1 H]
         end.
  unfold toStackbitField, includes, scalar_cases. simpl existsb.
  repeat match goal with
         | E : (attr_type attribute =? _) = false |- _ => rewrite E; clear E
         end.
  reflexivity.
Qed.

(** C4, counterexample: a model whose only attribute has the unknown tag
    [email].  The diagnostic is written and nothing is thrown, but the
    field list is not empty: it holds the source attribute itself. *)
Lemma unknown_attribute_not_dropped :
  exists model,
    toStackbitModels [contact_type] [] =
    ([console_log "Unknown attribute type: email"], Normal [model]) /\
    model_fields model = Some [AttributeAsField email_attribute] /\
    model_fields model <> Some [].
Proof. eexists. repeat split. discriminate. Qed.

(** C4, amended: for an attribute whose tag the classifier has no case
    for, the classifier writes the diagnostic, throws nothing and returns
    the attribute itself, which stays in the field list at the attribute's
    position; the attributes around it are mapped as they are without it,
    and the model is returned with one field per attribute. *)
Theorem unknown_attribute_kept (attributeName : string) (attribute : AttributeModel)
  (before after : list (string * AttributeModel))
  (out1 out2 : list ConsoleCall) (fields1 fields2 : list Field)
  (settings : list StrapiContentTypeSetting) (model : StrapiContentType)
  (opts : list (string * JsValue)) :
  includes known_tags (attr_type attribute) = false ->
  mapM toStackbitField before = (out1, Normal fields1) ->
  mapM toStackbitField after = (out2, Normal fields2) ->
  attributes model = before ++ (attributeName, attribute) :: after ->
  options model = JObject opts ->
  let diagnostic :=
    console_log ("Unknown attribute type: " +++ attr_type attribute) in
  toStackbitField (attributeName, attribute) =
    ([diagnostic], Normal (AttributeAsField attribute)) /\
  mapM toStackbitField (before ++ (attributeName, attribute) :: after) =
    (out1 ++ diagnostic :: out2,
     Normal (fields1 ++ AttributeAsField attribute :: fields2)) /\
  exists mapped,
    toStackbitModel settings model = (out1 ++ diagnostic :: out2, Normal mapped) /\
    model_fields mapped = Some (fields1 ++ AttributeAsField attribute :: fields2).
Proof.
  intros H H1 H2 Hattrs Hopts diagnostic.
  assert (G : mapM toStackbitField (before ++ (attributeName, attribute) :: after) =
              (out1 ++ diagnostic :: out2,
               Normal (fields1 ++ AttributeAsField attribute :: fields2))).
  { rewrite mapM_app, H1. cbn [mapM].
    rewrite (unknown_attribute_field _ _ H), H2. simpl.
    now rewrite !app_nil_r. }
  split; [now apply unknown_attribute_field |]. split; [exact G |].
  unfold toStackbitModel. rewrite Hopts, Hattrs, G. simpl.
  eexists. split; [now rewrite app_nil_r | reflexivity].
Qed.

Lemma unknown_attribute_kept_witness :
  exists mapped,
    toStackbitModel [] person_type =
      ([console_log "Unknown attribute type: email"], Normal mapped) /\
    option_map (@length Field) (model_fields mapped) = Some 3%nat.
Proof.
  destruct (unknown_attribute_kept "address" email_attribute
              [("name", string_attribute)] [("nickname", string_attribute)]
              [] [] _ _ [] person_type _
              eq_refl eq_refl eq_refl eq_refl eq_refl)
    as (_ & _ & mapped & Hm & Hf).
  exists mapped. split; [exact Hm | now rewrite Hf].
Defined.

(** The names of the mapped models are the source [apiID]s with their
    hyphens replaced. *)
Lemma toStackbitModels_names models settings out mapped :
  toStackbitModels models settings = (out, Normal mapped) ->
  map model_name mapped = map (fun m => replace_hyphens (apiID m)) models.
Proof.
  unfold toStackbitModels. revert out mapped.
  induction models as [| m models IH]; intros out mapped H; cbn [mapM] in H.
  - inversion H. reflexivity.
  - apply bind_Normal in H as (o1 & y & o2 & Hy & H & _).
    apply bind_Normal in H as (o3 & ys & o4 & Hys & R & _).
    inversion R; subst. simpl. f_equal; [| eauto].
    unfold toStackbitModel in Hy.
    apply bind_Normal in Hy as (? & dap & ? & _ & Hy & _).
    apply bind_Normal in Hy as (? & fields & ? & _ & Hy & _).
    inversion Hy. reflexivity.
Qed.

Lemma NoDup_map_replace_hyphens (l : list string) :
  Forall (fun s => occurs "_" s = false) l ->
  NoDup l -> NoDup (map replace_hyphens l).
Proof.
  induction 1 as [| s l Hs Hl IH]; intros Hnd; simpl; [constructor |].
  inversion Hnd as [| ? ? Hnotin Hnd']; subst.
  constructor; [| auto].
  intros Hin. apply in_map_iff in Hin as (s' & Heq & Hin).
  rewrite Forall_forall in Hl.
  apply replace_hyphens_injective in Heq; auto. now subst.
Qed.

(** C9, counterexample: a component and a content type with distinct uids
    and the same [apiID] are mapped to models of the same name. *)
Lemma normalized_names_collide :
  uid seo_component <> uid seo_type /\
  exists m1 m2,
    toStackbitModels [seo_component; seo_type] [] = ([], Normal [m1; m2]) /\
    model_name m1 = model_name m2.
Proof. split; [discriminate |]. do 2 eexists. split; reflexivity. Qed.

(** Distinct [apiID]s do not ensure distinct names either: a hyphen and an
    underscore at the same place give one name. *)
Lemma hyphen_and_underscore_collide :
  "my-type" <> "my_type" /\ replace_hyphens "my-type" = replace_hyphens "my_type".
Proof. split; [discriminate | reflexivity]. Qed.

(** C9, amended: the name of a mapped model is its [apiID] with hyphens
    replaced by underscores and does not depend on its uid; the names of the
    mapped models are pairwise distinct when the [apiID]s of the source
    models are pairwise distinct and contain no underscore. *)
Theorem normalized_names_distinct models settings out mapped :
  toStackbitModels models settings = (out, Normal mapped) ->
  Forall (fun m => occurs "_" (apiID m) = false) models ->
  NoDup (map apiID models) ->
  map model_name mapped = map (fun m => replace_hyphens (apiID m)) models /\
  NoDup (map model_name mapped).
Proof.
  intros H Hu Hnd.
  pose proof (toStackbitModels_names _ _ _ _ H) as Hn.
  split; [exact Hn |].
  rewrite Hn, <- (map_map apiID replace_hyphens).
  apply NoDup_map_replace_hyphens; [| exact Hnd].
  apply Forall_map. exact Hu.
Qed.

Lemma normalized_names_distinct_witness :
  exists mapped,
    toStackbitModels [seo_component; blog_post_type] [] = ([], Normal mapped) /\
    map model_name mapped = ["seo"; "blog_post"] /\
    NoDup (map model_name mapped).
Proof.
  eexists. split; [reflexivity |].
  refine (normalized_names_distinct [seo_component; blog_post_type] [] [] _
            eq_refl _ _).
  - repeat constructor.
  - repeat constructor; simpl; intuition discriminate.
Defined.

(** ** Document mapping *)

Section DocumentProperties.

Variable getModelByName : option string -> option Model.

Lemma toStackbitDocument_model_absent fuel manageUrl doc :
  getModelByName (Some (replace_hyphens (doc_type doc))) = None ->
  toStackbitDocument getModelByName fuel manageUrl doc = ([], Throw TypeError).
Proof. intros H. unfold toStackbitDocument. now rewrite H. Qed.

Lemma toStackbitDocument_status fuel manageUrl doc model out mapped :
  getModelByName (Some (replace_hyphens (doc_type doc))) = Some model ->
  toStackbitDocument getModelByName fuel manageUrl doc = (out, Normal mapped) ->
  document_status mapped = document_status_of model (doc_attributes doc) /\
  toFields getModelByName fuel (JObject (doc_attributes doc)) (Some model) =
    (out, Normal (document_fields mapped)).
Proof.
  intros Hm H. unfold toStackbitDocument in H. rewrite Hm in H.
  rewrite bind_ret_l in H.
  apply bind_Normal in H as (o1 & fields & o2 & Hf & R & ->).
  inversion R; subst. simpl. rewrite app_nil_r. auto.
Qed.

(** C1, amended: [toStackbitDocuments] has no per-document error.  When a
    document's normalized model name is absent from the cache, the call
    itself throws a [TypeError] at that document: the documents mapped
    before it are discarded, those after it are never mapped, and no batch
    holding such a document returns a list. *)
Theorem toStackbitDocuments_model_absent fuel manageUrl doc :
  getModelByName (Some (replace_hyphens (doc_type doc))) = None ->
  (forall before after out mapped,
     toStackbitDocuments getModelByName fuel before manageUrl = (out, Normal mapped) ->
     toStackbitDocuments getModelByName fuel (before ++ doc :: after) manageUrl =
       (out, Throw TypeError)) /\
  (forall documents out mapped,
     In doc documents ->
     toStackbitDocuments getModelByName fuel documents manageUrl <> (out, Normal mapped)).
Proof.
  intros Habsent. unfold toStackbitDocuments. split.
  - intros before after out mapped H.
    rewrite mapM_app, H. cbn [mapM].
    rewrite (toStackbitDocument_model_absent _ _ _ Habsent). simpl.
    now rewrite app_nil_r.
  - intros documents out mapped Hin H.
    apply in_split in Hin as (before & after & ->).
    rewrite mapM_app in H.
    apply bind_Normal in H as (o1 & ys1 & o2 & _ & H & _).
    apply bind_Normal in H as (o3 & ys2 & o4 & H & _ & _).
    cbn [mapM] in H.
    rewrite (toStackbitDocument_model_absent _ _ _ Habsent) in H.
    discriminate.
Qed.

(** C5: the status of a mapped document.  It is [published] when the
    model's [draftAndPublish] is false (or its context is absent), whatever
    the publish timestamp.  When [draftAndPublish] is true and the publish
    timestamp is [null], absent or a non-empty string, the status is
    [added] exactly when the timestamp is [null] or absent, and [published]
    exactly when it is neither. *)
Theorem document_status_rule fuel manageUrl doc model out mapped :
  getModelByName (Some (replace_hyphens (doc_type doc))) = Some model ->
  toStackbitDocument getModelByName fuel manageUrl doc = (out, Normal mapped) ->
  let publishedAt := prop "publishedAt" (doc_attributes doc) in
  (model_context model = None -> document_status mapped = published) /\
  (forall context,
     model_context model = Some context ->
     (draftAndPublish context = JBool false -> document_status mapped = published) /\
     (draftAndPublish context = JBool true ->
      publish_timestamp publishedAt ->
      (document_status mapped = added <->
       publishedAt = JNull \/ publishedAt = JUndefined) /\
      (document_status mapped = published <->
       publishedAt <> JNull /\ publishedAt <> JUndefined))).
Proof.
  intros Hm H publishedAt.
  destruct (toStackbitDocument_status _ _ _ _ _ _ Hm H) as [-> _].
  unfold document_status_of. fold publishedAt. split.
  - now intros ->.
  - intros context ->. split; [now intros -> |].
    intros -> [E | [E | (s & E & Hs)]]; rewrite E; simpl.
    + split; split; try discriminate; auto. intros [N _]. now contradiction N.
    + split; split; try discriminate; auto. intros [_ N]. now contradiction N.
    + apply String.eqb_neq in Hs. rewrite Hs. simpl.
      split; split; try discriminate; auto.
      * intros [N | N]; discriminate.
      * intros _. split; discriminate.
Qed.

Lemma mapM_Forall2 {A B C : Type} (f : A -> M B) (g : C -> B) xs ys :
  Forall2 (fun x y => f x = ret (g y)) xs ys ->
  mapM f xs = ret (map g ys).
Proof.
  induction 1 as [| x y xs ys H _ IH]; simpl; [reflexivity |].
  now rewrite H, IH.
Qed.

(** C6: the two encodings of a reference id.  A singular reference field
    whose value holds a truthy [data] yields the field's own name, the
    separator and [data.id].  A list-of-reference field whose value holds
    an array under [data] yields, for each element, the name of the cached
    model found under [models[0]], the separator and the element's [id]. *)
Theorem reference_ids fuel (field : FieldProps) (entries : list (string * JsValue)) :
  (forall data id,
     field_type field = Some Freference ->
     prop "data" entries = data ->
     truthy data = true ->
     getProp data "id" = ret id ->
     toDocumentField getModelByName fuel (Some (StackbitField field)) (JObject entries) =
       ([], Normal (Some (DocumentReferenceField document
                            (JString (encode (field_name field) (toString id))))))) /\
  (forall items target elements ids,
     field_type field = Some Flist ->
     field_items field = Some items ->
     items_type items = Freference ->
     getModelByName (hd_error (items_models items)) = Some target ->
     prop "data" entries = JArray elements ->
     Forall2 (fun element id => getProp element "id" = ret id) elements ids ->
     toDocumentField getModelByName fuel (Some (StackbitField field)) (JObject entries) =
       ([], Normal (Some (DocumentListField
                            (map (fun id =>
                                    DocumentReferenceField document
                                      (JString (encode (model_name target) (toString id))))
                                 ids))))).
Proof.
  split.
  - intros data id Ht Hd Htruthy Hid.
    unfold toDocumentField, toDocumentFieldWith. simpl. rewrite Ht. simpl.
    rewrite Hd, Htruthy, Hid. reflexivity.
  - intros items target elements ids Ht Hi Hr Hm Hd Hids.
    unfold toDocumentField, toDocumentFieldWith. simpl. rewrite Ht, Hi.
    unfold toDocumentListFieldItemsWith. rewrite Hr, Hm. simpl. rewrite Hd.
    simpl.
    rewrite (mapM_Forall2 _
               (fun id =>
                  DocumentReferenceField document
                    (JString (encode (model_name target) (toString id))))
               elements ids).
    + reflexivity.
    + eapply Forall2_impl; [| exact Hids].
      intros element id E. simpl in E. now rewrite E.
Qed.

(** *** The field map *)

Section Fields.

Variable rec : JsValue -> option Model -> M DocumentFields.
Variable model : Model.

(** An attribute without a model field of its name leaves the field map as
    it is and throws nothing. *)
Lemma step_no_field attributes attributeName attributeValue :
  find_field model attributeName = None ->
  toFields_step getModelByName rec (Some model) attributes
    (attributeName, attributeValue) = ret attributes.
Proof. intros H. unfold toFields_step. now rewrite H. Qed.

(** A step changes the field map at the attribute's name only. *)
Lemma step_lookup attributes entry out attributes' name :
  toFields_step getModelByName rec (Some model) attributes entry =
    (out, Normal attributes') ->
  fst entry <> name ->
  lookup name attributes' = lookup name attributes.
Proof.
  destruct entry as [attributeName attributeValue]. unfold toFields_step.
  intros H Hne. apply bind_Normal in H as (o1 & d & o2 & _ & R & _).
  inversion R; subst. destruct d; [| reflexivity].
  now apply lookup_assign_other.
Qed.

Lemma reduce_lookup entries attributes out attributes' name :
  reduceM (toFields_step getModelByName rec (Some model)) entries attributes =
    (out, Normal attributes') ->
  ~ In name (map fst entries) ->
  lookup name attributes' = lookup name attributes.
Proof.
  revert attributes out.
  induction entries as [| entry entries IH]; intros attributes out H Hnotin;
    cbn [reduceM] in H.
  - inversion H. reflexivity.
  - apply bind_Normal in H as (o1 & a1 & o2 & H1 & H2 & _).
    simpl in Hnotin.
    rewrite (IH _ _ H2) by tauto.
    eapply step_lookup; [exact H1 | tauto].
Qed.

(** Whether a step completes, and with which console output, does not
    depend on the field map built so far. *)
Lemma step_any_accumulator attributes entry out attributes' other :
  toFields_step getModelByName rec (Some model) attributes entry =
    (out, Normal attributes') ->
  exists other',
    toFields_step getModelByName rec (Some model) other entry =
      (out, Normal other').
Proof.
  destruct entry as [attributeName attributeValue]. unfold toFields_step.
  intros H. apply bind_Normal in H as (o1 & d & o2 & H1 & R & ->).
  inversion R; subst. rewrite H1. simpl. eauto.
Qed.

Lemma reduce_any_accumulator entries attributes out attributes' other :
  reduceM (toFields_step getModelByName rec (Some model)) entries attributes =
    (out, Normal attributes') ->
  exists other',
    reduceM (toFields_step getModelByName rec (Some model)) entries other =
      (out, Normal other').
Proof.
  revert attributes out other.
  induction entries as [| entry entries IH]; intros attributes out other H;
    cbn [reduceM] in *.
  - inversion H. unfold ret. eauto.
  - apply bind_Normal in H as (o1 & a1 & o2 & H1 & H2 & ->).
    destruct (step_any_accumulator _ _ _ _ other H1) as (b1 & Hb1).
    destruct (IH _ _ b1 H2) as (b2 & Hb2).
    exists b2. rewrite Hb1. simpl. now rewrite Hb2.
Qed.

End Fields.

Lemma kept_names entries name :
  ~ In name (map fst entries) -> ~ In name (map fst (kept entries)).
Proof.
  intros H Hin. apply H. apply in_map_iff in Hin as (e & <- & Hin).
  apply filter_In in Hin as [Hin _]. now apply in_map.
Qed.

Lemma toFields_object fuel entries model :
  toFields getModelByName (S fuel) (JObject entries) model =
  reduceM (toFields_step getModelByName (toFields getModelByName fuel) model)
          (kept entries) [].
Proof. cbn [toFields Object_entries]. now rewrite bind_ret_l. Qed.

(** An attribute whose value is [null], or whose name no field of the model
    has, makes no difference to [toFields]: console output and completion
    are those of the object without it. *)
Lemma toFields_skip fuel before attributeName attributeValue after model :
  attributeValue = JNull \/ find_field model attributeName = None ->
  toFields getModelByName fuel
    (JObject (before ++ (attributeName, attributeValue) :: after)) (Some model) =
  toFields getModelByName fuel (JObject (before ++ after)) (Some model).
Proof.
  intros H. destruct fuel as [| fuel]; [reflexivity |].
  rewrite !toFields_object. unfold kept. rewrite !filter_app. cbn [filter snd].
  destruct (not_null attributeValue) eqn:N.
  - destruct H as [-> | H]; [discriminate |].
    rewrite !reduceM_app. cbn [reduceM].
    apply bind_ext. intros a.
    now rewrite (step_no_field _ _ _ _ _ H), bind_ret_l.
  - reflexivity.
Qed.

(** C7: in the field map [toFields] builds from the attributes of a
    document (or of a nested component), an attribute whose value is [null]
    and an attribute whose name no field of the model has get no entry, and
    neither is an error: the mapping completes as it does without the
    attribute, and the mapped document's fields have no entry of that
    name. *)
Theorem toFields_drops fuel before attributeName attributeValue after model :
  attributeValue = JNull \/ find_field model attributeName = None ->
  ~ In attributeName (map fst (before ++ after)) ->
  let attributes := before ++ (attributeName, attributeValue) :: after in
  toFields getModelByName fuel (JObject attributes) (Some model) =
    toFields getModelByName fuel (JObject (before ++ after)) (Some model) /\
  (forall out fields,
     toFields getModelByName fuel (JObject attributes) (Some model) =
       (out, Normal fields) ->
     lookup attributeName fields = None) /\
  (forall manageUrl id type out mapped,
     getModelByName (Some (replace_hyphens type)) = Some model ->
     toStackbitDocument getModelByName fuel manageUrl
       {| doc_id := id; doc_type := type; doc_attributes := attributes |} =
       (out, Normal mapped) ->
     lookup attributeName (document_fields mapped) = None).
Proof.
  intros H Hnotin attributes.
  pose proof (toFields_skip fuel before attributeName attributeValue after model H)
    as Heq.
  assert (G : forall out fields,
             toFields getModelByName fuel (JObject attributes) (Some model) =
               (out, Normal fields) ->
             lookup attributeName fields = None).
  { intros out fields Hf. unfold attributes in Hf. rewrite Heq in Hf.
    destruct fuel as [| fuel]; [discriminate |].
    rewrite toFields_object in Hf.
    apply reduce_lookup with (name := attributeName) in Hf; [exact Hf |].
    now apply kept_names. }
  repeat split; auto.
  intros manageUrl id type out mapped Hm Hd.
  destruct (toStackbitDocument_status fuel manageUrl
              {| doc_id := id; doc_type := type; doc_attributes := attributes |}
              model out mapped Hm Hd) as [_ Hf].
  simpl in Hf. eauto.
Qed.

Lemma step_value_field rec model attributes attributeName attributeValue f t :
  find_field model attributeName = Some f ->
  Field_type f = Some t ->
  In t value_types ->
  toFields_step getModelByName rec (Some model) attributes (attributeName, attributeValue) =
  ret (assign attributeName (DocumentValueField t attributeValue) attributes).
Proof.
  intros Hf Ht Hin. unfold toFields_step, toDocumentFieldWith. rewrite Hf, Ht.
  unfold value_types in Hin. simpl in Hin.
  repeat (destruct Hin as [<- | Hin]; [reflexivity |]). contradiction.
Qed.

(** C10: an attribute whose value is [undefined] passes the [!== null]
    filter.  When the model field of its name has a value type, the field
    map gets the entry of that type with the value [undefined]: whenever the
    other attributes are mapped, so is the object with this attribute, with
    the same console output, and the entry is there.  The name is one that
    an assignment defines on the field map, that is, any name but
    [__proto__]. *)
Theorem toFields_keeps_undefined fuel before attributeName after model f t out fields :
  find_field model attributeName = Some f ->
  Field_type f = Some t ->
  In t value_types ->
  attributeName <> "__proto__" ->
  ~ In attributeName (map fst after) ->
  toFields getModelByName fuel (JObject (before ++ after)) (Some model) =
    (out, Normal fields) ->
  exists fields',
    toFields getModelByName fuel
      (JObject (before ++ (attributeName, JUndefined) :: after)) (Some model) =
      (out, Normal fields') /\
    lookup attributeName fields' = Some (DocumentValueField t JUndefined).
Proof.
  intros Hf Ht Hin Hname Hnotin H.
  destruct fuel as [| fuel]; [discriminate |].
  rewrite toFields_object in *. unfold kept in *. rewrite filter_app in *.
  cbn [filter snd not_null]. rewrite reduceM_app in *.
  apply bind_Normal in H as (o1 & a1 & o2 & H1 & H2 & ->).
  rewrite H1. cbn [reduceM].
  destruct (reduce_any_accumulator _ _ _ _ _ _
              (assign attributeName (DocumentValueField t JUndefined) a1) H2)
    as (fields' & H2').
  exists fields'. split.
  { rewrite (bind_step _ _ o1 a1 eq_refl).
    rewrite (step_value_field _ _ _ _ _ _ _ Hf Ht Hin), bind_ret_l, H2'.
    reflexivity. }
  rewrite (reduce_lookup _ _ _ _ _ _ attributeName H2').
  - now apply lookup_assign_same.
  - now apply kept_names.
Qed.

End DocumentProperties.

(** *** On the sample cache *)

(** C1, counterexample: the draft alone is mapped; in one batch with a
    document whose model the cache does not have, the call throws and the
    draft is not returned. *)
Lemma batch_aborted_by_missing_model :
  (exists mapped,
     toStackbitDocuments sample_cache 1 [draft_post] sample_url =
       ([], Normal [mapped])) /\
  sample_cache (Some (replace_hyphens (doc_type orphan_document))) = None /\
  toStackbitDocuments sample_cache 1 [draft_post; orphan_document] sample_url =
    ([], Throw TypeError).
Proof. split; [eexists; reflexivity | split; reflexivity]. Qed.

Lemma toStackbitDocuments_model_absent_witness :
  toStackbitDocuments sample_cache 1
    ([draft_post] ++ orphan_document :: [draft_post]) sample_url =
  ([], Throw TypeError).
Proof.
  exact (proj1 (toStackbitDocuments_model_absent sample_cache 1 sample_url
                  orphan_document eq_refl)
               [draft_post] [draft_post] [] _ eq_refl).
Defined.

(** Beyond timestamps the test is one of truthiness: with [draftAndPublish]
    true, an empty string under [publishedAt] gives the status [added]. *)
Lemma blank_timestamp_is_added :
  exists context mapped,
    sample_cache (Some (replace_hyphens (doc_type blank_timestamp_post))) =
      Some post_model /\
    model_context post_model = Some context /\
    draftAndPublish context = JBool true /\
    lookup "publishedAt" (doc_attributes blank_timestamp_post) = Some (JString "") /\
    not_null (JString "") = true /\
    toStackbitDocument sample_cache 1 sample_url blank_timestamp_post =
      ([], Normal mapped) /\
    document_status mapped = added.
Proof. do 2 eexists. repeat split. Qed.

Lemma document_status_rule_witness :
  exists mapped,
    toStackbitDocument sample_cache 1 sample_url draft_post = ([], Normal mapped) /\
    document_status mapped = added.
Proof.
  eexists. split; [reflexivity |].
  refine (let H := document_status_rule sample_cache 1 sample_url draft_post
                     post_model [] _ eq_refl eq_refl in _).
  destruct H as [_ H]. destruct (H _ eq_refl) as [_ H'].
  destruct (H' eq_refl (or_introl eq_refl)) as [Hadded _].
  apply Hadded. left. reflexivity.
Defined.

Lemma reference_ids_witness :
  toDocumentField sample_cache 0 (Some (StackbitField author_field))
    (JObject author_value) =
    ([], Normal (Some (DocumentReferenceField document (JString "author#5")))) /\
  toDocumentField sample_cache 0 (Some (StackbitField tags_field))
    (JObject tags_value) =
    ([], Normal (Some (DocumentListField
                         [DocumentReferenceField document (JString "tag#3");
                          DocumentReferenceField document (JString "tag#7")]))).
Proof.
  split.
  - exact (proj1 (reference_ids sample_cache 0 author_field author_value)
                 (JObject [("id", JNumber 5)]) (JNumber 5)
                 eq_refl eq_refl eq_refl eq_refl).
  - refine (proj2 (reference_ids sample_cache 0 tags_field tags_value)
                  _ tag_model _ [JNumber 3; JNumber 7]
                  eq_refl eq_refl eq_refl eq_refl eq_refl _).
    repeat constructor.
Defined.

Lemma toFields_drops_witness :
  exists mapped,
    toStackbitDocument sample_cache 1 sample_url draft_post = ([], Normal mapped) /\
    lookup "publishedAt" (document_fields mapped) = None /\
    lookup "views" (document_fields mapped) = None.
Proof.
  eexists. split; [reflexivity |]. split.
  - refine (proj2 (proj2 (toFields_drops sample_cache 1
                            [("title", JString "Hello")] "publishedAt" JNull
                            [("views", JNumber 40)] post_model _ _))
                  sample_url 12%Z "post" [] _ eq_refl eq_refl).
    + left. reflexivity.
    + simpl. intuition discriminate.
  - refine (proj2 (proj2 (toFields_drops sample_cache 1
                            [("title", JString "Hello"); ("publishedAt", JNull)]
                            "views" (JNumber 40) [] post_model _ _))
                  sample_url 12%Z "post" [] _ eq_refl eq_refl).
    + right. reflexivity.
    + simpl. intuition discriminate.
Defined.

Lemma toFields_keeps_undefined_witness :
  exists fields,
    toFields sample_cache 1
      (JObject [("title", JString "Hello"); ("subtitle", JUndefined);
                ("views", JNumber 40)])
      (Some post_model) = ([], Normal fields) /\
    lookup "subtitle" fields = Some (DocumentValueField Fstring JUndefined).
Proof.
  refine (toFields_keeps_undefined sample_cache 1 [("title", JString "Hello")]
            "subtitle" [("views", JNumber 40)] post_model
            (sample_field Fstring "subtitle") Fstring [] _
            eq_refl eq_refl _ _ _ eq_refl).
  - left. reflexivity.
  - discriminate.
  - simpl. intuition discriminate.
Defined.

(** ** Write path *)

Lemma unset_cleared fieldPath modelField t rest fields :
  Field_type modelField = Some t ->
  In t cleared_types ->
  updates_loop (OpUnset fieldPath modelField :: rest) fields =
  updates_loop rest (set_property (first_segment fieldPath) JUndefined fields).
Proof.
  intros Ht Hin. cbn [updates_loop]. rewrite Ht.
  unfold cleared_types, value_types in Hin. simpl in Hin.
  repeat (destruct Hin as [<- | Hin]; [reflexivity |]). contradiction.
Qed.

Lemma unset_rejected fieldPath modelField t rest fields :
  Field_type modelField = Some t ->
  In t rejected_types ->
  updates_loop (OpUnset fieldPath modelField :: rest) fields =
  ([], Throw (Error ("updating field of type " +++ FieldType_name t
                     +++ " not implemented"))).
Proof.
  intros Ht Hin. cbn [updates_loop]. rewrite Ht.
  unfold rejected_types in Hin. simpl in Hin.
  repeat (destruct Hin as [<- | Hin]; [reflexivity |]). contradiction.
Qed.

(** The loop over a batch in two parts. *)
Lemma updates_loop_app before rest fields out mid :
  updates_loop before fields = (out, Normal (Fields mid)) ->
  exists fields',
    own fields' = mid /\
    updates_loop (before ++ rest) fields =
    (out ++ fst (updates_loop rest fields'), snd (updates_loop rest fields')).
Proof.
  revert fields out.
  induction before as [| op before IH]; intros fields out H; cbn [app updates_loop] in *.
  - inversion H. exists fields. split; [reflexivity |].
    now destruct (updates_loop rest fields).
  - destruct op as [field fieldPath | fieldPath modelField | opType].
    + apply bind_Normal in H as (o1 & v & o2 & Hv & H & ->).
      destruct (IH _ _ H) as (fields' & Hown & E).
      exists fields'. split; [exact Hown |].
      rewrite Hv. rewrite (bind_step _ _ o1 v eq_refl).
      rewrite E. simpl. now rewrite app_assoc.
    + destruct (Field_type modelField) as [t |]; [| discriminate].
      destruct t; try discriminate; now apply IH.
    + discriminate.
Qed.

Lemma updates_loop_split before rest fields out final :
  updates_loop (before ++ rest) fields = (out, Normal (Fields final)) ->
  exists out1 mid out2,
    updates_loop before fields = (out1, Normal (Fields (own mid))) /\
    updates_loop rest mid = (out2, Normal (Fields final)).
Proof.
  revert fields out.
  induction before as [| op before IH]; intros fields out H; cbn [app updates_loop] in *.
  - exists [], fields, out. auto.
  - destruct op as [field fieldPath | fieldPath modelField | opType].
    + apply bind_Normal in H as (o1 & v & o2 & Hv & H & ->).
      destruct (IH _ _ H) as (out1 & mid & out2 & H1 & H2).
      exists (o1 ++ out1), mid, out2. split; [| exact H2].
      now rewrite Hv, (bind_step _ _ o1 v eq_refl), H1.
    + destruct (Field_type modelField) as [t |]; [| discriminate].
      destruct t; try discriminate; exact (IH _ _ H).
    + discriminate.
Qed.

Lemma updates_loop_present ops fields out final key :
  updates_loop ops fields = (out, Normal (Fields final)) ->
  lookup key (own fields) <> None -> lookup key final <> None.
Proof.
  revert fields out.
  induction ops as [| op ops IH]; intros fields out H Hp; cbn [updates_loop] in H.
  - inversion H; now subst.
  - destruct op as [field fieldPath | fieldPath modelField | opType].
    + apply bind_Normal in H as (o1 & v & o2 & _ & H & _).
      eapply IH; [exact H |]. now apply lookup_set_present.
    + destruct (Field_type modelField) as [t |]; [| discriminate].
      destruct t; try discriminate;
        (eapply IH; [exact H |]; now apply lookup_set_present).
    + discriminate.
Qed.

Lemma updates_loop_unwritten ops fields out final key :
  updates_loop ops fields = (out, Normal (Fields final)) ->
  Forall (fun op => writes key op = false) ops ->
  lookup key final = lookup key (own fields).
Proof.
  revert fields out.
  induction ops as [| op ops IH]; intros fields out H Hw; cbn [updates_loop] in H.
  - inversion H; now subst.
  - inversion Hw as [| ? ? Hop Hops]; subst.
    destruct op as [field fieldPath | fieldPath modelField | opType];
      simpl in Hop; try apply String.eqb_neq in Hop.
    + apply bind_Normal in H as (o1 & v & o2 & _ & H & _).
      rewrite (IH _ _ H Hops). now apply lookup_set_other.
    + destruct (Field_type modelField) as [t |]; [| discriminate].
      destruct t; try discriminate;
        (rewrite (IH _ _ H Hops); now apply lookup_set_other).
    + discriminate.
Qed.

(** C8, amended: an [unset] operation on a field of a value type, of type
    [image] or of type [reference] assigns [undefined] to the key
    [fieldPath[0]].  For a key other than [__proto__], which an assignment
    may not define, the key is present in the payload the batch returns,
    and its value is [undefined] unless a later operation of the batch
    writes the same key.  An [unset] operation on a field of type [object],
    [model], [cross-reference] or [list] throws, and the batch returns no
    payload. *)
Theorem unset_operations fieldPath modelField t :
  Field_type modelField = Some t ->
  let key := first_segment fieldPath in
  let op := OpUnset fieldPath modelField in
  (In t cleared_types ->
   (forall rest fields,
      updates_loop (op :: rest) fields =
        updates_loop rest (set_property key JUndefined fields)) /\
   (key <> "__proto__" ->
    (forall fields,
       lookup key (own (set_property key JUndefined fields)) = Some JUndefined) /\
    (forall before rest out final,
       stackbitUpdatesToStrapiFields (before ++ op :: rest) =
         (out, Normal (Fields final)) ->
       lookup key final <> None /\
       (Forall (fun later => writes key later = false) rest ->
        lookup key final = Some JUndefined)))) /\
  (In t rejected_types ->
   let error := Error ("updating field of type " +++ FieldType_name t
                       +++ " not implemented") in
   (forall before rest out fields,
      stackbitUpdatesToStrapiFields before = (out, Normal (Fields fields)) ->
      stackbitUpdatesToStrapiFields (before ++ op :: rest) = (out, Throw error)) /\
   (forall before rest out final,
      stackbitUpdatesToStrapiFields (before ++ op :: rest) <>
        (out, Normal (Fields final)))).
Proof.
  intros Ht key op. unfold stackbitUpdatesToStrapiFields. split.
  - intros Hin. split.
    + intros rest fields. now apply unset_cleared with (t := t).
    + intros Hkey. split.
      * intros fields. now apply lookup_set_same.
      * intros before rest out final H.
        apply updates_loop_split in H as (out1 & mid & out2 & _ & H).
        unfold op in H. rewrite (unset_cleared _ _ _ _ _ Ht Hin) in H. fold key in H.
        split.
        -- eapply updates_loop_present; [exact H |].
           now rewrite lookup_set_same.
        -- intros Hw. rewrite (updates_loop_unwritten _ _ _ _ key H Hw).
           now apply lookup_set_same.
  - intros Hin. split.
    + intros before rest out fields H.
      destruct (updates_loop_app _ (op :: rest) _ _ _ H) as (mid & _ & ->).
      unfold op. rewrite (unset_rejected _ _ _ _ _ Ht Hin). simpl.
      now rewrite app_nil_r.
    + intros before rest out final H.
      apply updates_loop_split in H as (out1 & mid & out2 & _ & H).
      unfold op in H. rewrite (unset_rejected _ _ _ _ _ Ht Hin) in H.
      discriminate.
Qed.

(** C8, counterexample: [image] is one of the composite types of the
    specification, and an [unset] operation on an image field throws
    nothing: the payload holds the key with the value [undefined]. *)
Lemma unset_image_is_cleared :
  In Fimage composite_types /\
  stackbitUpdatesToStrapiFields [OpUnset [Key "cover"] (sample_field Fimage "cover")] =
    ([], Normal (Fields [("cover", JUndefined)])).
Proof. split; [left; reflexivity | reflexivity]. Qed.

Lemma unset_operations_witness :
  lookup "title" [("title", JUndefined)] = Some JUndefined /\
  stackbitUpdatesToStrapiFields
    ([] ++ OpUnset [Key "seo"; Key "title"] (sample_field Fmodel "seo") :: []) =
    ([], Throw (Error "updating field of type model not implemented")).
Proof.
  split.
  - refine (proj2 (proj2 (proj2 (proj1 (unset_operations [Key "title"]
                                          (sample_field Fstring "title") Fstring
                                          eq_refl) _) _)
                         [] [] [] [("title", JUndefined)] eq_refl) _).
    + left. reflexivity.
    + discriminate.
    + constructor.
  - refine (proj1 (proj2 (unset_operations [Key "seo"; Key "title"]
                            (sample_field Fmodel "seo") Fmodel eq_refl) _)
                  [] [] [] [] eq_refl).
    right. left. reflexivity.
Defined.

(** ** Scenarios of the specification, evaluated *)

(** A many-to-many relation to [api::tag.tag] is a list of references to
    the model [tag]. *)
Example relation_scenario :
  toStackbitField ("tags", tags_relation) = ret (StackbitField tags_field).
Proof. reflexivity. Qed.

(** A [set] operation on [["title"]] with the string ["Hello"] gives the
    payload [{title: "Hello"}]. *)
Example set_scenario :
  stackbitUpdatesToStrapiFields
    [OpSet {| uof_type := Fstring; uof_value := JString "Hello";
              uof_refId := JUndefined |} [Key "title"]] =
  ret (Fields [("title", JString "Hello")]).
Proof. reflexivity. Qed.

(** A repeatable component with two nested objects gives a list of two
    model fields, each mapped by [toFields]. *)
Example repeatable_component_scenario :
  toDocumentField sample_cache 1 (Some (StackbitField labels_field))
    (JArray [JObject [("label", JString "a")]; JObject [("label", JString "b")]]) =
  ret (Some (DocumentListField
               [DocumentModelField (Some "tag")
                  [("label", DocumentValueField Fstring (JString "a"))];
                DocumentModelField (Some "tag")
                  [("label", DocumentValueField Fstring (JString "b"))]])).
Proof. reflexivity. Qed.

(** An operation that is neither [set] nor [unset] throws, and the batch
    returns no payload. *)
Example other_operation_scenario :
  stackbitUpdatesToStrapiFields
    [OpUnset [Key "title"] (sample_field Fstring "title"); OpOther "insert"] =
  throw (Error "'insert' operation not implemented").
Proof. reflexivity. Qed.

(** [updateDocument] on a composite id: the endpoint of the model and the
    source id. *)
Example updateDocument_scenario :
  updateDocument sample_cache "post#12"
    [OpUnset [Key "subtitle"] (sample_field Fstring "subtitle")] =
  ret {| put_endpoint := Some "posts"; put_id := Some "12";
         put_fields := Fields [("subtitle", JUndefined)] |}.
Proof. reflexivity. Qed.

(** An assignment to the key [__proto__] calls the setter of
    [Object.prototype] and defines no property of the payload. *)
Example proto_key_scenario :
  stackbitUpdatesToStrapiFields
    [OpSet title_update [Key "__proto__"]; OpSet title_update [Key "title"]] =
  ret (Fields [("title", JString "Hello")]).
Proof. reflexivity. Qed.

(** Once the value [null] has been assigned to [__proto__], the object has
    no prototype, and a further assignment defines the property. *)
Example null_prototype_scenario :
  stackbitUpdatesToStrapiFields
    [OpSet null_update [Key "__proto__"]; OpSet title_update [Key "__proto__"]] =
  ret (Fields [("__proto__", JString "Hello")]).
Proof. reflexivity. Qed.

(** An attribute named [__proto__] gives no entry of the field map, even
    when the model has a field of that name. *)
Example proto_attribute_scenario :
  toFields (cache_of []) 1
    (JObject [("__proto__", JString "x"); ("title", JString "Hello")])
    (Some proto_model) =
  ret [("title", DocumentValueField Fstring (JString "Hello"))].
Proof. reflexivity. Qed.

(** * Further properties *)

(** ** Lists mapped by a callback that may throw *)

Lemma mapM_completes {A B : Type} (f : A -> M B) (P : A -> bool) (e : Exception)
  (l : list A) :
  (forall x, P x = true -> exists out y, f x = (out, Normal y)) ->
  (forall x, P x = false -> exists out, f x = (out, Throw e)) ->
  (forallb P l = true -> exists out ys, mapM f l = (out, Normal ys)) /\
  (forallb P l = false -> exists out, mapM f l = (out, Throw e)).
Proof.
  intros Hok Hko. induction l as [| x l [IH1 IH2]]; cbn [forallb mapM].
  - split; [intros _; unfold ret; eauto | discriminate].
  - destruct (P x) eqn:Px; simpl.
    + destruct (Hok x Px) as (o & y & ->). split; intros H.
      * destruct (IH1 H) as (o' & ys & ->). simpl. eauto.
      * destruct (IH2 H) as (o' & ->). simpl. eauto.
    + destruct (Hko x Px) as (o & ->). split; [discriminate |].
      intros _. simpl. eauto.
Qed.

Lemma mapM_related {A B : Type} (f : A -> M B) (R : A -> B -> Prop) (l : list A) out ys :
  (forall x o y, In x l -> f x = (o, Normal y) -> R x y) ->
  mapM f l = (out, Normal ys) -> Forall2 R l ys.
Proof.
  revert out ys. induction l as [| x l IH]; intros out ys HR H; cbn [mapM] in H.
  - inversion H. constructor.
  - apply bind_Normal in H as (o1 & y & o2 & Hy & H & _).
    apply bind_Normal in H as (o3 & ys' & o4 & Hys & R' & _).
    inversion R'; subst. constructor.
    + eapply HR; [now left | exact Hy].
    + eapply IH; [| exact Hys]. intros; eapply HR; [right |]; eassumption.
Qed.

(** ** Schema mapping, further *)

Lemma toStackbitField_well_formed (entry : string * AttributeModel) :
  well_formed_attribute (snd entry) = true ->
  exists out field, toStackbitField entry = (out, Normal field).
Proof.
  destruct entry as [name a]. unfold well_formed_attribute, toStackbitField. simpl snd.
  destruct (includes scalar_cases (attr_type a)); [unfold ret; eauto |].
  destruct (attr_type a =? "relation").
  - unfold relation_target. destruct (attr_target a) as [t |]; [| discriminate].
    destruct (nth_error (split "." t) 1); [| discriminate].
    intros _. destruct (match attr_relation a with Some r => _ | None => _ end);
      rewrite bind_ret_l; unfold ret; eauto.
  - destruct (attr_type a =? "component").
    + unfold component_target. destruct (attr_component a); [| discriminate].
      intros _. destruct (double_negation (attr_repeatable a));
        rewrite bind_ret_l; unfold ret; eauto.
    + intros _. destruct (attr_type a =? "media"); unfold ret, console; eauto.
Qed.

Lemma toStackbitField_ill_formed (entry : string * AttributeModel) :
  well_formed_attribute (snd entry) = false ->
  toStackbitField entry = ([], Throw TypeError).
Proof.
  destruct entry as [name a].
  unfold well_formed_attribute, toStackbitField, relation_target, component_target.
  cbv zeta. simpl snd.
  destruct (attr_type a =? "relation") eqn:E1.
  - apply String.eqb_eq in E1. rewrite E1.
    change (includes scalar_cases "relation") with false. cbv iota.
    destruct (attr_target a) as [t |];
      [destruct (nth_error (split "." t) 1); [discriminate |] |];
      intros _; now destruct (match attr_relation a with Some r => _ | None => _ end).
  - destruct (attr_type a =? "component") eqn:E2; [| discriminate].
    apply String.eqb_eq in E2. rewrite E2.
    change (includes scalar_cases "component") with false. cbv iota.
    destruct (attr_component a); [discriminate |].
    intros _. now destruct (double_negation (attr_repeatable a)).
Qed.

Lemma toStackbitModel_completes settings model :
  (well_formed_model model = true ->
   exists out mapped, toStackbitModel settings model = (out, Normal mapped)) /\
  (well_formed_model model = false ->
   exists out, toStackbitModel settings model = (out, Throw TypeError)).
Proof.
  unfold well_formed_model, toStackbitModel.
  destruct (mapM_completes toStackbitField
              (fun entry => well_formed_attribute (snd entry)) TypeError
              (attributes model)) as [Hok Hko].
  { apply toStackbitField_well_formed. }
  { intros x Hx. exists []. now apply toStackbitField_ill_formed. }
  destruct (options model) eqn:Ho; simpl;
    try (split; [discriminate | intros _; eexists; reflexivity]);
    (split; intros H;
     [ destruct (Hok H) as (o & fs & ->); simpl; eauto
     | destruct (Hko H) as (o & ->); simpl; eauto ]).
Qed.

(** X1: when schema mapping throws.  [toStackbitModels] completes exactly
    when every model has [options] other than [undefined] and [null], every
    relation attribute has a target with a second dot-separated piece and
    every component attribute has its [component]; otherwise the whole call
    throws a [TypeError], and it never ends in another way. *)
Theorem toStackbitModels_completes models settings :
  (forallb well_formed_model models = true ->
   exists out mapped, toStackbitModels models settings = (out, Normal mapped)) /\
  (forallb well_formed_model models = false ->
   exists out, toStackbitModels models settings = (out, Throw TypeError)).
Proof.
  unfold toStackbitModels. apply mapM_completes.
  - intros m. apply (toStackbitModel_completes settings m).
  - intros m. apply (toStackbitModel_completes settings m).
Qed.

Lemma toStackbitModels_completes_witness :
  (exists out mapped,
     toStackbitModels [article_type; seo_component] [] = (out, Normal mapped)) /\
  (exists out,
     toStackbitModels [article_type; broken_type] [] = (out, Throw TypeError)).
Proof.
  split.
  - exact (proj1 (toStackbitModels_completes [article_type; seo_component] []) eq_refl).
  - exact (proj2 (toStackbitModels_completes [article_type; broken_type] []) eq_refl).
Defined.

Lemma toStackbitField_shape (entry : string * AttributeModel) out field :
  toStackbitField entry = (out, Normal field) ->
  Field_name field = Some (fst entry) \/
  (field = AttributeAsField (snd entry) /\
   includes known_tags (attr_type (snd entry)) = false).
Proof.
  destruct entry as [name a]. unfold toStackbitField. simpl fst. simpl snd.
  unfold known_tags, includes. rewrite existsb_app. fold (includes scalar_cases (attr_type a)).
  destruct (includes scalar_cases (attr_type a)).
  { intros H. inversion H. now left. }
  simpl existsb.
  destruct (attr_type a =? "relation").
  { destruct (match attr_relation a with Some r => _ | None => _ end);
      intros H; apply bind_Normal in H as (? & ? & ? & _ & H & _);
      inversion H; now left. }
  destruct (attr_type a =? "component").
  { destruct (double_negation (attr_repeatable a));
      intros H; apply bind_Normal in H as (? & ? & ? & _ & H & _);
      inversion H; now left. }
  destruct (attr_type a =? "media"); intros H; inversion H; auto.
Qed.

(** X2: the shape of a mapped schema.  When [toStackbitModels] completes it
    returns one model per source model, in order; each has the normalized
    [apiID] as its name, the type [data] exactly when the uid starts with
    [api::], and one field per attribute, in the order of the attributes:
    a field named as the attribute, or, for a tag without a case, the
    attribute itself. *)
Theorem toStackbitModels_shape models settings out mapped :
  toStackbitModels models settings = (out, Normal mapped) ->
  Forall2
    (fun source model =>
       model_name model = replace_hyphens (apiID source) /\
       model_type model = (if String.prefix "api::" (uid source) then data else object) /\
       exists fields,
         model_fields model = Some fields /\
         Forall2 (fun entry field =>
                    Field_name field = Some (fst entry) \/
                    (field = AttributeAsField (snd entry) /\
                     includes known_tags (attr_type (snd entry)) = false))
                 (attributes source) fields)
    models mapped.
Proof.
  unfold toStackbitModels. apply mapM_related.
  intros source o model _ H. unfold toStackbitModel in H.
  apply bind_Normal in H as (? & dap & ? & _ & H & _).
  apply bind_Normal in H as (? & fields & ? & Hf & H & _).
  inversion H; subst; simpl. repeat split. exists fields. split; [reflexivity |].
  eapply mapM_related; [| exact Hf].
  intros entry o' field _. apply toStackbitField_shape.
Qed.

Lemma toStackbitModels_shape_witness :
  exists out mapped,
    toStackbitModels [article_type] [] = (out, Normal mapped) /\
    Forall2 (fun source model =>
               model_name model = replace_hyphens (apiID source) /\
               model_type model =
                 (if String.prefix "api::" (uid source) then data else object) /\
               exists fields,
                 model_fields model = Some fields /\
                 Forall2 (fun entry field =>
                            Field_name field = Some (fst entry) \/
                            (field = AttributeAsField (snd entry) /\
                             includes known_tags (attr_type (snd entry)) = false))
                         (attributes source) fields)
            [article_type] mapped.
Proof.
  do 2 eexists. split; [reflexivity |].
  exact (toStackbitModels_shape [article_type] [] _ _ eq_refl).
Defined.

Lemma split_two (sep : ascii) (a b : string) :
  occurs sep a = false -> occurs sep b = false ->
  split sep (a +++ String sep b) = [a; b].
Proof.
  intros Ha Hb. now rewrite (split_append sep a b Ha), (split_absent sep b Hb).
Qed.

(** X3: how a relation is classified.  For a relation whose target is a
    namespace, a dot and a local name without dot, the field is a list of
    references when the cardinality is [oneToMany] or [manyToMany] and a
    single reference for every other cardinality (also an absent one); in
    both cases the only target model is the local name with its hyphens
    replaced. *)
Theorem relation_attribute_field (name : string) (a : AttributeModel)
  (namespace local : string) :
  attr_type a = "relation" ->
  attr_target a = Some (namespace +++ "." +++ local) ->
  occurs "." namespace = false ->
  occurs "." local = false ->
  toStackbitField (name, a) =
  ret (target_field name (to_many (attr_relation a)) Freference (replace_hyphens local)).
Proof.
  intros Htag Htarget Hn Hl.
  unfold toStackbitField, relation_target. cbv zeta. rewrite Htag, Htarget.
  change (includes scalar_cases "relation") with false. cbv iota.
  change ("relation" =? "relation") with true. cbv iota.
  change (namespace +++ "." +++ local) with (namespace +++ String "." local).
  rewrite (split_two "." namespace local Hn Hl). cbn [nth_error].
  unfold target_field, to_many, includes. cbn [existsb].
  destruct (attr_relation a) as [r |]; [| now rewrite bind_ret_l].
  rewrite orb_false_r.
  destruct ((r =? "oneToMany") || (r =? "manyToMany")); now rewrite bind_ret_l.
Qed.

Lemma relation_attribute_field_witness :
  toStackbitField ("tags", tags_relation) =
  ret (target_field "tags" true Freference "tag").
Proof.
  exact (relation_attribute_field "tags" tags_relation "api::tag" "tag"
           eq_refl eq_refl eq_refl eq_refl).
Defined.

Lemma after_last_dot_absent (s : string) :
  occurs "." s = false -> after_last_dot s = None.
Proof.
  induction s as [| c s IH]; simpl; intros H; [reflexivity |].
  apply orb_false_iff in H as [Hc Hs].
  destruct (line_terminator c); [reflexivity |].
  now rewrite (IH Hs), Hc.
Qed.

Lemma after_last_dot_append (category local : string) :
  some_char line_terminator category = false ->
  occurs "." local = false ->
  after_last_dot (category +++ String "." local) = Some local.
Proof.
  intros Hc Hl. induction category as [| c category IH]; simpl in *.
  - now rewrite (after_last_dot_absent local Hl).
  - apply orb_false_iff in Hc as [Hc Hcs].
    now rewrite Hc, (IH Hcs).
Qed.

(** X4: how a component is classified.  For a component identifier made of
    a category (without line break), a dot and a local name without dot,
    the field is a list of models when [repeatable] is true and a single
    model when it is false or absent, and the only target model is the
    local name with its hyphens replaced; an identifier without dot is
    taken whole. *)
Theorem component_attribute_field (name : string) (a : AttributeModel) :
  attr_type a = "component" ->
  (forall category local,
     attr_component a = Some (category +++ "." +++ local) ->
     some_char line_terminator category = false ->
     occurs "." local = false ->
     toStackbitField (name, a) =
     ret (target_field name (double_negation (attr_repeatable a)) Fmodel
            (replace_hyphens local))) /\
  (forall component,
     attr_component a = Some component ->
     occurs "." component = false ->
     toStackbitField (name, a) =
     ret (target_field name (double_negation (attr_repeatable a)) Fmodel
            (replace_hyphens component))).
Proof.
  intros Htag.
  assert (G : forall component local,
             attr_component a = Some component ->
             strip_namespace component = local ->
             toStackbitField (name, a) =
             ret (target_field name (double_negation (attr_repeatable a)) Fmodel
                    (replace_hyphens local))).
  { intros component local Hc Hs.
    unfold toStackbitField, component_target. cbv zeta. rewrite Htag, Hc.
    change (includes scalar_cases "component") with false. cbv iota.
    change ("component" =? "relation") with false.
    change ("component" =? "component") with true. cbv iota.
    rewrite Hs. unfold target_field.
    destruct (double_negation (attr_repeatable a)); now rewrite bind_ret_l. }
  split.
  - intros category local Hc Hcat Hl. apply (G _ _ Hc).
    unfold strip_namespace.
    change (category +++ "." +++ local) with (category +++ String "." local).
    now rewrite (after_last_dot_append _ _ Hcat Hl).
  - intros component Hc Hdot. apply (G _ _ Hc).
    unfold strip_namespace. now rewrite (after_last_dot_absent _ Hdot).
Qed.

Lemma component_attribute_field_witness :
  toStackbitField ("seo", seo_attribute) =
  ret (target_field "seo" false Fmodel "seo_meta").
Proof.
  exact (proj1 (component_attribute_field "seo" seo_attribute eq_refl)
               "shared" "seo-meta" eq_refl eq_refl eq_refl).
Defined.

(** X5: the scalar tags that have a table entry.  An attribute tagged
    [boolean], [integer], [string], [richtext], [text], [datetime], [json]
    or [enumeration] becomes a field of type [boolean], [number], [string],
    [text], [text], [datetime], [json] or [string] respectively, named as
    the attribute, with [required] as given ([false] when absent) and
    [default] as given. *)
Theorem scalar_attribute_types (name : string) (a : AttributeModel) (t : FieldType) :
  In (attr_type a, t)
     [("boolean", Fboolean); ("integer", Fnumber); ("string", Fstring);
      ("richtext", Ftext); ("text", Ftext); ("datetime", Fdatetime);
      ("json", Fjson); ("enumeration", Fstring)] ->
  toStackbitField (name, a) =
  ret (StackbitField
         {| field_type := Some t;
            field_name := name;
            field_required := Some (match attr_required a with
                                    | Some required => required
                                    | None => false
                                    end);
            field_default := attr_default a;
            field_models := [];
            field_items := None |}).
Proof.
  intros H. simpl in H.
  repeat (destruct H as [H | H];
          [inversion H as [[Htag Ht]]; unfold toStackbitField; cbv zeta;
           rewrite <- Htag; reflexivity |]).
  contradiction.
Qed.

Lemma scalar_attribute_types_witness :
  toStackbitField ("title", string_attribute) =
  ret (StackbitField
         {| field_type := Some Fstring; field_name := "title";
            field_required := Some true; field_default := JUndefined;
            field_models := []; field_items := None |}).
Proof.
  apply (scalar_attribute_types "title" string_attribute Fstring).
  right. right. left. reflexivity.
Defined.

(** ** Document mapping, further *)

Lemma occurs_digits (c : ascii) (d : Decimal.uint) :
  c = separator -> occurs c (NilEmpty.string_of_uint d) = false.
Proof. intros ->. induction d; simpl; auto. Qed.

Lemma occurs_decimal (n : Z) : occurs separator (decimal n) = false.
Proof.
  unfold decimal, NilZero.string_of_int, NilZero.string_of_uint.
  destruct (Z.to_int n) as [d | d]; destruct d; try reflexivity;
    try apply (occurs_digits separator _ eq_refl);
    simpl; apply (occurs_digits separator _ eq_refl).
Qed.

Lemma occurs_replace_hyphens (s : string) :
  occurs separator (replace_hyphens s) = occurs separator s.
Proof.
  induction s as [| c s IH]; simpl; [reflexivity |]. rewrite IH. f_equal.
  destruct (Ascii.eqb c "-") eqn:E; [| reflexivity].
  apply Ascii.eqb_eq in E. now subst.
Qed.

Lemma decode_composite (m id : string) :
  occurs separator m = false -> occurs separator id = false ->
  decode (encode m id) = (Some m, Some id).
Proof.
  intros Hm Hid. unfold decode, encode, ID_SEPARATOR. simpl String.append.
  now rewrite (split_two separator m id Hm Hid).
Qed.

Lemma not_null_true (v : JsValue) : v <> JNull -> not_null v = true.
Proof. destruct v; simpl; congruence. Qed.

Lemma not_null_neq (v : JsValue) : not_null v = true -> v <> JNull.
Proof. destruct v; simpl; congruence. Qed.

Lemma getProp_truthy (v : JsValue) (key : string) :
  truthy v = true -> exists w, getProp v key = ret w.
Proof. destruct v; simpl; try discriminate; intros _; unfold ret; eauto. Qed.

Lemma In_lookup {A : Type} (key : string) (v : A) entries :
  In (key, v) entries -> lookup key entries <> None.
Proof.
  induction entries as [| [k w] rest IH]; simpl; [tauto |].
  intros [H | H].
  - inversion H; subst. now rewrite String.eqb_refl.
  - destruct (k =? key); [discriminate | auto].
Qed.

Section FurtherDocumentProperties.

Variable getModelByName : option string -> option Model.

Lemma toStackbitDocument_parts fuel url doc out mapped :
  toStackbitDocument getModelByName fuel url doc = (out, Normal mapped) ->
  document_id mapped = encode (replace_hyphens (doc_type doc)) (decimal (doc_id doc)) /\
  document_modelName mapped = replace_hyphens (doc_type doc) /\
  document_manageUrl mapped =
    url +++ "/collectionType/api::" +++ doc_type doc +++ "." +++ doc_type doc
        +++ "/" +++ decimal (doc_id doc) /\
  exists model, getModelByName (Some (replace_hyphens (doc_type doc))) = Some model.
Proof.
  unfold toStackbitDocument.
  destruct (getModelByName (Some (replace_hyphens (doc_type doc)))) as [model |];
    [| discriminate].
  rewrite bind_ret_l. intros H.
  apply bind_Normal in H as (o1 & fields & o2 & _ & R & _).
  inversion R; subst. simpl. eauto.
Qed.

(** X6: the identity of the mapped documents.  When [toStackbitDocuments]
    completes it returns one document per source document, in order; its
    id is the normalized type, the separator and the decimal source id, its
    model name is the normalized type, and its manage URL is built from the
    type as the source gives it, hyphens included. *)
Theorem toStackbitDocuments_identities fuel documents url out mapped :
  toStackbitDocuments getModelByName fuel documents url = (out, Normal mapped) ->
  Forall2
    (fun doc m =>
       document_id m = replace_hyphens (doc_type doc) +++ "#" +++ decimal (doc_id doc) /\
       document_modelName m = replace_hyphens (doc_type doc) /\
       document_manageUrl m =
         url +++ "/collectionType/api::" +++ doc_type doc +++ "." +++ doc_type doc
             +++ "/" +++ decimal (doc_id doc))
    documents mapped.
Proof.
  unfold toStackbitDocuments. apply mapM_related.
  intros doc o m _ H.
  destruct (toStackbitDocument_parts _ _ _ _ _ H) as (H1 & H2 & H3 & _).
  auto.
Qed.

(** X7: from a mapped document back to the source.  For a document whose
    type holds no separator, [updateDocument] on the id that
    [toStackbitDocuments] gave it finds the model the document was mapped
    with and, when that model has a context and the operations give a
    payload, requests the model's endpoint with the decimal source id and
    that payload. *)
Theorem mapped_id_addresses_source fuel url doc out mapped model context
  operations out' payload :
  occurs separator (doc_type doc) = false ->
  toStackbitDocument getModelByName fuel url doc = (out, Normal mapped) ->
  getModelByName (Some (replace_hyphens (doc_type doc))) = Some model ->
  model_context model = Some context ->
  stackbitUpdatesToStrapiFields operations = (out', Normal payload) ->
  updateDocument getModelByName (document_id mapped) operations =
  (out', Normal {| put_endpoint := apiEndpoint context;
                   put_id := Some (decimal (doc_id doc));
                   put_fields := payload |}).
Proof.
  intros Hsep Hdoc Hmodel Hctx Hops.
  destruct (toStackbitDocument_parts _ _ _ _ _ Hdoc) as (-> & _).
  unfold updateDocument. rewrite Hops, (bind_step _ _ out' payload eq_refl).
  rewrite decode_composite;
    [| now rewrite occurs_replace_hyphens | apply occurs_decimal].
  rewrite Hmodel, Hctx. simpl. now rewrite app_nil_r.
Qed.

(** X8: a reference field never throws.  Whatever the attribute value, the
    mapping of a singular reference field completes without console output,
    and the field is omitted exactly when the value is not an object with a
    truthy [data]. *)
Theorem reference_field_never_throws fuel (field : FieldProps) (v : JsValue) :
  field_type field = Some Freference ->
  exists r,
    toDocumentField getModelByName fuel (Some (StackbitField field)) v = ([], Normal r) /\
    (r = None <->
     forall entries, v = JObject entries -> truthy (prop "data" entries) = false).
Proof.
  intros Ht. unfold toDocumentField, toDocumentFieldWith. simpl. rewrite Ht.
  destruct v as [| | b | n | s | l | entries]; simpl;
    try (eexists; split; [reflexivity | split; [discriminate | reflexivity]]).
  - destruct b; eexists; (split; [reflexivity | split; [discriminate | reflexivity]]).
  - destruct (negb (n =? 0)%Z); eexists;
      (split; [reflexivity | split; [discriminate | reflexivity]]).
  - destruct (negb (s =? "")); eexists;
      (split; [reflexivity | split; [discriminate | reflexivity]]).
  - destruct (truthy (prop "data" entries)) eqn:T.
    + destruct (getProp_truthy _ "id" T) as (w & ->). simpl.
      eexists. split; [reflexivity |]. split; [discriminate |].
      intros H. specialize (H entries eq_refl). congruence.
    + eexists. split; [reflexivity |]. split; [| reflexivity].
      intros _ entries' E. inversion E; subst. exact T.
Qed.

(** X9: a list whose items are neither models nor references is emptied.
    Whatever the attribute value, the mapping of such a list field writes
    [Unhandled type] and the item type to the error console and returns a
    list field without items. *)
Theorem list_of_other_items_is_emptied fuel (field : FieldProps)
  (items : FieldSpecificProps) (v : JsValue) :
  field_type field = Some Flist ->
  field_items field = Some items ->
  items_type items <> Fmodel ->
  items_type items <> Freference ->
  toDocumentField getModelByName fuel (Some (StackbitField field)) v =
  ([console_error ("Unhandled type " +++ FieldType_name (items_type items))],
   Normal (Some (DocumentListField []))).
Proof.
  intros Ht Hi Hm Hr. unfold toDocumentField, toDocumentFieldWith. simpl.
  rewrite Ht, Hi. unfold toDocumentListFieldItemsWith.
  destruct (items_type items); try contradiction; reflexivity.
Qed.

End FurtherDocumentProperties.

Lemma toStackbitDocuments_identities_witness :
  exists mapped,
    toStackbitDocuments sample_cache 1 [draft_post; blank_timestamp_post] sample_url =
      ([], Normal mapped) /\
    Forall2
      (fun doc m =>
         document_id m = replace_hyphens (doc_type doc) +++ "#" +++ decimal (doc_id doc) /\
         document_modelName m = replace_hyphens (doc_type doc) /\
         document_manageUrl m =
           sample_url +++ "/collectionType/api::" +++ doc_type doc +++ "."
                      +++ doc_type doc +++ "/" +++ decimal (doc_id doc))
      [draft_post; blank_timestamp_post] mapped.
Proof.
  eexists. split; [reflexivity |].
  exact (toStackbitDocuments_identities sample_cache 1
           [draft_post; blank_timestamp_post] sample_url [] _ eq_refl).
Defined.

Lemma mapped_id_addresses_source_witness :
  exists mapped,
    toStackbitDocument sample_cache 1 sample_url draft_post = ([], Normal mapped) /\
    updateDocument sample_cache (document_id mapped)
      [OpUnset [Key "subtitle"] (sample_field Fstring "subtitle")] =
    ([], Normal {| put_endpoint := Some "posts"; put_id := Some "12";
                   put_fields := Fields [("subtitle", JUndefined)] |}).
Proof.
  eexists. split; [reflexivity |].
  exact (mapped_id_addresses_source sample_cache 1 sample_url draft_post [] _
           post_model _ [OpUnset [Key "subtitle"] (sample_field Fstring "subtitle")]
           [] (Fields [("subtitle", JUndefined)])
           eq_refl eq_refl eq_refl eq_refl eq_refl).
Defined.

Lemma reference_field_never_throws_witness :
  exists r,
    toDocumentField sample_cache 0 (Some (StackbitField author_field))
      (JObject [("data", JNull)]) = ([], Normal r) /\
    (r = None <->
     forall entries, JObject [("data", JNull)] = JObject entries ->
                     truthy (prop "data" entries) = false).
Proof.
  exact (reference_field_never_throws sample_cache 0 author_field
           (JObject [("data", JNull)]) eq_refl).
Defined.

Lemma list_of_other_items_is_emptied_witness :
  toDocumentField sample_cache 0 (Some (StackbitField keywords_field))
    (JArray [JString "a"; JString "b"]) =
  ([console_error "Unhandled type string"], Normal (Some (DocumentListField []))).
Proof.
  refine (list_of_other_items_is_emptied sample_cache 0 keywords_field keywords_items
            _ eq_refl eq_refl _ _); discriminate.
Defined.

(** ** The field map, further *)

Section FurtherFieldProperties.

Variable getModelByName : option string -> option Model.

Lemma toFields_aborts fuel before name v after model e out fields :
  v <> JNull ->
  (forall attributes,
     toFields_step getModelByName (toFields getModelByName fuel) (Some model)
       attributes (name, v) = ([], Throw e)) ->
  toFields getModelByName (S fuel) (JObject before) (Some model) = (out, Normal fields) ->
  toFields getModelByName (S fuel) (JObject (before ++ (name, v) :: after)) (Some model) =
  (out, Throw e).
Proof.
  intros Hv Hstep H. rewrite toFields_object in *. unfold kept in *.
  rewrite filter_app. cbn [filter snd]. rewrite (not_null_true v Hv).
  rewrite reduceM_app, (bind_step _ _ out fields H). cbn [reduceM].
  rewrite Hstep. simpl. now rewrite app_nil_r.
Qed.

Lemma toStackbitDocument_fields_throw fuel url doc model out e :
  getModelByName (Some (replace_hyphens (doc_type doc))) = Some model ->
  toFields getModelByName fuel (JObject (doc_attributes doc)) (Some model) = (out, Throw e) ->
  toStackbitDocument getModelByName fuel url doc = (out, Throw e).
Proof.
  intros Hm Hf. unfold toStackbitDocument. rewrite Hm, bind_ret_l, Hf. reflexivity.
Qed.

(** X10: a field of type [object] or [cross-reference] aborts the document.
    When the attributes before it are mapped and its own value is not
    [null], [toFields] throws the error [field of type ... not implemented]
    at that attribute, and so does the mapping of a document with these
    attributes; a [null] value is filtered out before the type is looked
    at. *)
Theorem unsupported_field_type_throws fuel before name v after model f t out fields :
  find_field model name = Some f ->
  Field_type f = Some t ->
  In t [Fobject; Fcross_reference] ->
  v <> JNull ->
  toFields getModelByName fuel (JObject before) (Some model) = (out, Normal fields) ->
  let attributes := before ++ (name, v) :: after in
  let error := Error ("field of type " +++ FieldType_name t +++ " not implemented") in
  toFields getModelByName fuel (JObject attributes) (Some model) = (out, Throw error) /\
  forall url id type,
    getModelByName (Some (replace_hyphens type)) = Some model ->
    toStackbitDocument getModelByName fuel url
      {| doc_id := id; doc_type := type; doc_attributes := attributes |} =
    (out, Throw error).
Proof.
  intros Hf Ht Hin Hv H attributes error.
  destruct fuel as [| fuel]; [discriminate |].
  assert (G : toFields getModelByName (S fuel) (JObject attributes) (Some model) =
              (out, Throw error)).
  { apply toFields_aborts with (fields := fields); auto.
    intros acc. unfold toFields_step, toDocumentFieldWith. rewrite Hf, Ht.
    simpl in Hin. destruct Hin as [<- | [<- | []]]; reflexivity. }
  split; [exact G |].
  intros url id type Hm.
  now apply toStackbitDocument_fields_throw with (model := model).
Qed.

(** X11: an [undefined] value where the field reads inside the value.  For
    a field of type [model], or a list of models or of references, an
    attribute holding [undefined] passes the [null] filter and the mapping
    throws a [TypeError] at it, once the attributes before it are
    mapped. *)
Theorem undefined_component_throws fuel before name after model (p : FieldProps)
  out fields :
  find_field model name = Some (StackbitField p) ->
  reads_inside p = true ->
  toFields getModelByName (S (S fuel)) (JObject before) (Some model) =
    (out, Normal fields) ->
  toDocumentField getModelByName (S fuel) (Some (StackbitField p)) JUndefined =
    ([], Throw TypeError) /\
  toFields getModelByName (S (S fuel))
    (JObject (before ++ (name, JUndefined) :: after)) (Some model) =
    (out, Throw TypeError).
Proof.
  intros Hf Hr H.
  assert (G : toDocumentField getModelByName (S fuel) (Some (StackbitField p)) JUndefined =
              ([], Throw TypeError)).
  { unfold toDocumentField, toDocumentFieldWith, reads_inside in *. simpl Field_type.
    destruct (field_type p) as [[] |]; try discriminate.
    - reflexivity.
    - unfold toDocumentListFieldItemsWith. simpl Field_items.
      destruct (field_items p) as [items |]; [| discriminate].
      destruct (items_type items); try discriminate; reflexivity. }
  split; [exact G |].
  apply toFields_aborts with (fields := fields); auto; [discriminate |].
  intros acc. unfold toFields_step. rewrite Hf.
  unfold toDocumentField in G. now rewrite G.
Qed.

(** X12: a component whose model the cache does not hold.  For a field of
    type [model] whose target is absent from the cache and a value that is
    an object, the nested field map is empty when every property of the
    object is [null] (also when it has none), and the mapping throws a
    [TypeError] as soon as one is not. *)
Theorem missing_nested_model fuel (p : FieldProps) (entries : list (string * JsValue)) :
  field_type p = Some Fmodel ->
  getModelByName (hd_error (field_models p)) = None ->
  toDocumentField getModelByName (S fuel) (Some (StackbitField p)) (JObject entries) =
  match kept entries with
  | [] => ret (Some (DocumentModelField (hd_error (field_models p)) []))
  | _ :: _ => ([], Throw TypeError)
  end.
Proof.
  intros Ht Hm. unfold toDocumentField, toDocumentFieldWith. simpl Field_type.
  rewrite Ht. simpl Field_models_0. rewrite bind_ret_l, Hm, toFields_object.
  destruct (kept entries) as [| [n v] rest]; reflexivity.
Qed.

Section Keys.

Variable rec : JsValue -> option Model -> M DocumentFields.
Variable model : Model.

Lemma step_keys attributes entry out attributes' :
  toFields_step getModelByName rec (Some model) attributes entry =
    (out, Normal attributes') ->
  attributes' = attributes \/
  (find_field model (fst entry) <> None /\
   exists d, attributes' = assign (fst entry) d attributes).
Proof.
  destruct entry as [n v]. unfold toFields_step. intros H.
  apply bind_Normal in H as (o1 & d & o2 & Hd & R & _).
  inversion R; subst. destruct d as [d |]; [right | now left].
  split; [| now exists d].
  intros Hnone. simpl in Hnone. rewrite Hnone in Hd. discriminate.
Qed.

Lemma reduce_keys entries attributes out attributes' :
  reduceM (toFields_step getModelByName rec (Some model)) entries attributes =
    (out, Normal attributes') ->
  NoDup (map fst attributes) ->
  NoDup (map fst attributes') /\
  forall name,
    In name (map fst attributes') ->
    In name (map fst attributes) \/
    (In name (map fst entries) /\ find_field model name <> None).
Proof.
  revert attributes out.
  induction entries as [| entry entries IH]; intros attributes out H Hnd;
    cbn [reduceM] in H.
  - inversion H; subst. auto.
  - apply bind_Normal in H as (o1 & a1 & o2 & H1 & H2 & _).
    apply step_keys in H1 as [-> | (Hfield & d & ->)].
    + destruct (IH _ _ H2 Hnd) as [Hnd' Hkeys]. split; [exact Hnd' |].
      intros name Hin. destruct (Hkeys name Hin) as [? | [? ?]]; simpl; auto.
    + destruct (IH _ _ H2 (NoDup_assign _ _ _ Hnd)) as [Hnd' Hkeys].
      split; [exact Hnd' |].
      intros name Hin. destruct (Hkeys name Hin) as [Hk | [? ?]]; simpl; auto.
      apply In_assign_key in Hk as [-> | Hk]; auto.
Qed.

End Keys.

(** X13: what the field map holds.  A field map that [toFields] returns has
    no two entries of one name, and each entry stands for an attribute of
    that name whose value is not [null] and for which the model has a
    field. *)
Theorem field_map_keys fuel attributes model out fields :
  toFields getModelByName fuel (JObject attributes) (Some model) = (out, Normal fields) ->
  NoDup (map fst fields) /\
  forall name d,
    In (name, d) fields ->
    find_field model name <> None /\
    exists v, In (name, v) attributes /\ v <> JNull.
Proof.
  intros H. destruct fuel as [| fuel]; [discriminate |].
  rewrite toFields_object in H.
  apply reduce_keys in H as [Hnd Hkeys]; [| constructor].
  split; [exact Hnd |].
  intros name d Hin.
  destruct (Hkeys name) as [[] | [Hname Hfield]].
  { apply in_map_iff. now exists (name, d). }
  split; [exact Hfield |].
  apply in_map_iff in Hname as ([n v] & Hn & Hkept). simpl in Hn. subst n.
  unfold kept in Hkept. apply filter_In in Hkept as [Hattr Hnn].
  exists v. split; [exact Hattr | now apply not_null_neq].
Qed.

End FurtherFieldProperties.

Lemma unsupported_field_type_throws_witness :
  toStackbitDocument landing_cache 2 sample_url
    {| doc_id := 7; doc_type := "landing";
       doc_attributes := [("title", JString "Home")] ++
                         ("legacy", JObject []) :: [("seo", JNull)] |} =
  ([], Throw (Error "field of type object not implemented")).
Proof.
  refine (proj2 (unsupported_field_type_throws landing_cache 2
                   [("title", JString "Home")] "legacy" (JObject [])
                   [("seo", JNull)] landing_model (sample_field Fobject "legacy")
                   Fobject [] _ eq_refl eq_refl _ _ eq_refl)
                sample_url 7%Z "landing" eq_refl).
  - left. reflexivity.
  - discriminate.
Defined.

Lemma undefined_component_throws_witness :
  toFields landing_cache 2
    (JObject ([("title", JString "Home")] ++ ("seo", JUndefined) :: []))
    (Some landing_model) = ([], Throw TypeError).
Proof.
  exact (proj2 (undefined_component_throws landing_cache 0
                  [("title", JString "Home")] "seo" [] landing_model seo_field
                  [] _ eq_refl eq_refl eq_refl)).
Defined.

Lemma missing_nested_model_witness :
  toDocumentField landing_cache 1 (Some (StackbitField banner_field))
    (JObject [("image", JNull)]) =
    ret (Some (DocumentModelField (Some "banner") [])) /\
  toDocumentField landing_cache 1 (Some (StackbitField banner_field))
    (JObject [("image", JNull); ("text", JString "Sale")]) =
    ([], Throw TypeError).
Proof.
  split.
  - exact (missing_nested_model landing_cache 0 banner_field [("image", JNull)]
             eq_refl eq_refl).
  - exact (missing_nested_model landing_cache 0 banner_field
             [("image", JNull); ("text", JString "Sale")] eq_refl eq_refl).
Defined.

Lemma field_map_keys_witness :
  exists fields,
    toFields sample_cache 1 (JObject (doc_attributes draft_post)) (Some post_model) =
      ([], Normal fields) /\
    NoDup (map fst fields) /\
    forall name d,
      In (name, d) fields ->
      find_field post_model name <> None /\
      exists v, In (name, v) (doc_attributes draft_post) /\ v <> JNull.
Proof.
  eexists. split; [reflexivity |].
  exact (field_map_keys sample_cache 1 (doc_attributes draft_post) post_model [] _
           eq_refl).
Defined.

(** ** The recursion budget *)

Lemma bind_finishes {A B : Type} (m : M A) (f : A -> M B) :
  finishes m -> (forall a, finishes (f a)) -> finishes (bind m f).
Proof.
  unfold finishes. destruct m as [out [a | e |]]; simpl; intros Hm Hf.
  - specialize (Hf a). now destruct (f a).
  - discriminate.
  - contradiction.
Qed.

Lemma mapM_finishes {A B : Type} (f : A -> M B) (l : list A) :
  (forall x, In x l -> finishes (f x)) -> finishes (mapM f l).
Proof.
  induction l as [| x l IH]; intros H; cbn [mapM].
  - discriminate.
  - apply bind_finishes; [apply H; now left |].
    intros y. apply bind_finishes; [apply IH; intros; apply H; now right |].
    intros ys. discriminate.
Qed.

Lemma reduceM_finishes {A B : Type} (f : B -> A -> M B) (l : list A) (acc : B) :
  (forall b x, In x l -> finishes (f b x)) -> finishes (reduceM f l acc).
Proof.
  revert acc. induction l as [| x l IH]; intros acc H; cbn [reduceM].
  - discriminate.
  - apply bind_finishes; [apply H; now left |].
    intros acc'. apply IH. intros; apply H; now right.
Qed.

Lemma bind_settles {A B : Type} (m1 m2 : M A) (f1 f2 : A -> M B) :
  settles_as m1 m2 -> (forall a, settles_as (f1 a) (f2 a)) ->
  settles_as (bind m1 f1) (bind m2 f2).
Proof.
  unfold settles_as, finishes. intros Hm Hf H.
  destruct m1 as [out [a | e |]]; simpl in *.
  - rewrite <- Hm by discriminate. simpl.
    specialize (Hf a). destruct (f1 a) as [o r]. simpl in *.
    rewrite <- Hf by exact H. reflexivity.
  - rewrite <- Hm by discriminate. reflexivity.
  - contradiction.
Qed.

Lemma settles_refl {A : Type} (m : M A) : settles_as m m.
Proof. intros _. reflexivity. Qed.

Lemma mapM_settles {A B : Type} (f1 f2 : A -> M B) (l : list A) :
  (forall x, settles_as (f1 x) (f2 x)) -> settles_as (mapM f1 l) (mapM f2 l).
Proof.
  intros H. induction l as [| x l IH]; cbn [mapM].
  - apply settles_refl.
  - apply bind_settles; [apply H |].
    intros y. apply bind_settles; [apply IH |]. intros ys. apply settles_refl.
Qed.

Lemma reduceM_settles {A B : Type} (f1 f2 : B -> A -> M B) (l : list A) (acc : B) :
  (forall b x, settles_as (f1 b x) (f2 b x)) ->
  settles_as (reduceM f1 l acc) (reduceM f2 l acc).
Proof.
  intros H. revert acc. induction l as [| x l IH]; intros acc; cbn [reduceM].
  - apply settles_refl.
  - apply bind_settles; [apply H | apply IH].
Qed.

Section Budget.

Variable getModelByName : option string -> option Model.

Section Calls.

Variables rec1 rec2 : JsValue -> option Model -> M DocumentFields.
Hypothesis rec_settles : forall v model, settles_as (rec1 v model) (rec2 v model).

Lemma toDocumentListFieldItemsWith_settles props v :
  settles_as (toDocumentListFieldItemsWith getModelByName rec1 props v)
             (toDocumentListFieldItemsWith getModelByName rec2 props v).
Proof.
  unfold toDocumentListFieldItemsWith. destruct props as [props |]; [| apply settles_refl].
  destruct (items_type props); try apply settles_refl.
  - unfold Array_map. destruct v; try apply settles_refl.
    apply mapM_settles. intros x.
    apply bind_settles; [apply rec_settles | intros; apply settles_refl].
Qed.

Lemma toDocumentFieldWith_settles modelField v :
  settles_as (toDocumentFieldWith getModelByName rec1 modelField v)
             (toDocumentFieldWith getModelByName rec2 modelField v).
Proof.
  unfold toDocumentFieldWith. destruct modelField as [f |]; [| apply settles_refl].
  destruct (Field_type f) as [[] |]; try apply settles_refl.
  - apply bind_settles; [apply settles_refl |]. intros name.
    apply bind_settles; [apply rec_settles | intros; apply settles_refl].
  - apply bind_settles; [apply toDocumentListFieldItemsWith_settles |].
    intros; apply settles_refl.
Qed.

Lemma toFields_step_settles model attributes entry :
  settles_as (toFields_step getModelByName rec1 model attributes entry)
             (toFields_step getModelByName rec2 model attributes entry).
Proof.
  unfold toFields_step. destruct entry as [n v].
  destruct model as [m |]; [| apply settles_refl].
  apply bind_settles; [apply toDocumentFieldWith_settles | intros; apply settles_refl].
Qed.

End Calls.

Lemma toFields_settles_S fuel v model :
  settles_as (toFields getModelByName fuel v model)
             (toFields getModelByName (S fuel) v model).
Proof.
  revert v model. induction fuel as [| fuel IH]; intros v model.
  - intros H. now contradiction H.
  - cbn [toFields]. apply bind_settles; [apply settles_refl |].
    intros entries. apply reduceM_settles. intros acc entry.
    apply toFields_step_settles. exact IH.
Qed.

Lemma toFields_settles fuel extra v model :
  settles_as (toFields getModelByName fuel v model)
             (toFields getModelByName (extra + fuel) v model).
Proof.
  induction extra as [| extra IH]; [apply settles_refl |].
  intros H. rewrite (IH H). simpl plus.
  apply toFields_settles_S. rewrite <- (IH H). exact H.
Qed.

(** The recursion budget of the embedding only bounds the nesting: when a
    batch is mapped with some budget without exhausting it, every larger
    budget gives the same console output and the same completion; the same
    holds for a single field map. *)
Lemma budget_is_only_a_bound fuel extra :
  (forall documents url,
     finishes (toStackbitDocuments getModelByName fuel documents url) ->
     toStackbitDocuments getModelByName (extra + fuel) documents url =
     toStackbitDocuments getModelByName fuel documents url) /\
  (forall v model,
     finishes (toFields getModelByName fuel v model) ->
     toFields getModelByName (extra + fuel) v model =
     toFields getModelByName fuel v model).
Proof.
  split.
  - intros documents url H. symmetry. revert H.
    unfold toStackbitDocuments. apply mapM_settles. intros doc.
    unfold toStackbitDocument.
    apply bind_settles; [apply settles_refl |]. intros status.
    apply bind_settles; [apply toFields_settles | intros; apply settles_refl].
  - intros v model H. symmetry. now apply toFields_settles.
Qed.

Section Ranked.

(** A rank of the cached models under which every nested model of a cached
    model has a smaller rank: the cache holds no cycle of components. *)
Variable rank : Model -> nat.
Hypothesis rank_decreases :
  forall name model fields f target,
    getModelByName name = Some model ->
    model_fields model = Some fields ->
    In f fields ->
    In target (nested_targets f) ->
    budget rank (getModelByName target) <= rank model.

Lemma toDocumentFieldWith_finishes rec f v :
  (forall v' target, In target (nested_targets f) ->
                     finishes (rec v' (getModelByName target))) ->
  finishes (toDocumentFieldWith getModelByName rec (Some f) v).
Proof.
  intros Hrec. unfold toDocumentFieldWith.
  destruct f as [p | a].
  - simpl Field_type. simpl Field_items. simpl Field_models_0.
    unfold nested_targets in Hrec.
    destruct (field_type p) as [[] |]; try discriminate.
    + rewrite bind_ret_l. apply bind_finishes; [| discriminate].
      apply Hrec. now left.
    + destruct (truthy v); [| discriminate].
      apply bind_finishes; [destruct v; discriminate |].
      intros data. destruct (truthy data); [| discriminate].
      apply bind_finishes; [destruct data; discriminate | discriminate].
    + apply bind_finishes; [| discriminate].
      unfold toDocumentListFieldItemsWith.
      destruct (field_items p) as [items |]; [| discriminate].
      destruct (items_type items); try discriminate.
      * unfold Array_map. destruct v; try discriminate.
        apply mapM_finishes. intros x _.
        apply bind_finishes; [| discriminate]. apply Hrec. now left.
      * apply bind_finishes; [destruct v; discriminate |].
        intros data. unfold Array_map. destruct data; try discriminate.
        apply mapM_finishes. intros x _.
        destruct (getModelByName (hd_error (items_models items))); [| discriminate].
        apply bind_finishes; [destruct x; discriminate | discriminate].
  - simpl Field_type. simpl Field_items. simpl Field_models_0.
    destruct (FieldType_of_name (attr_type a)) as [[] |]; try discriminate.
    destruct (truthy v); [| discriminate].
    apply bind_finishes; [destruct v; discriminate |].
    intros data. destruct (truthy data); [| discriminate].
    apply bind_finishes; [destruct data; discriminate | discriminate].
Qed.

Lemma toFields_finishes fuel v name :
  budget rank (getModelByName name) < fuel ->
  finishes (toFields getModelByName fuel v (getModelByName name)).
Proof.
  revert v name. induction fuel as [| fuel IH]; intros v name Hfuel; [inversion Hfuel |].
  cbn [toFields]. apply bind_finishes; [destruct v; discriminate |].
  intros entries. apply reduceM_finishes. intros acc [n w] _.
  unfold toFields_step.
  destruct (getModelByName name) as [model |] eqn:Hmodel; [| discriminate].
  apply bind_finishes; [| discriminate].
  destruct (find_field model n) as [f |] eqn:Hf; [| discriminate].
  apply toDocumentFieldWith_finishes.
  intros v' target Htarget. apply IH.
  unfold find_field in Hf.
  destruct (model_fields model) as [fields |] eqn:Hfields; [| discriminate].
  apply find_some in Hf as [Hin _].
  pose proof (rank_decreases name model fields f target Hmodel Hfields Hin Htarget) as Hr.
  cbn [budget] in Hfuel. lia.
Qed.

(** X15: document mapping returns when the cache holds no cycle of
    components.  Under a rank of the cached models that decreases from a
    model to each model nested in it, a budget above the rank of a model
    is never exhausted: the field map of any value against that model, and
    a batch of documents whose models are below the budget, end normally or
    by an exception. *)
Theorem acyclic_cache_terminates fuel :
  (forall v name,
     budget rank (getModelByName name) < fuel ->
     finishes (toFields getModelByName fuel v (getModelByName name))) /\
  (forall documents url,
     (forall doc, In doc documents ->
        budget rank (getModelByName (Some (replace_hyphens (doc_type doc)))) < fuel) ->
     finishes (toStackbitDocuments getModelByName fuel documents url)).
Proof.
  split; [intros; now apply toFields_finishes |].
  intros documents url H. unfold toStackbitDocuments.
  apply mapM_finishes. intros doc Hin. unfold toStackbitDocument.
  apply bind_finishes.
  - destruct (getModelByName (Some (replace_hyphens (doc_type doc)))); discriminate.
  - intros status. apply bind_finishes; [| discriminate].
    apply toFields_finishes. now apply H.
Qed.

End Ranked.

Lemma bind_exhausted {A B : Type} (m : M A) (f : A -> M B) :
  snd m = OutOfFuel -> snd (bind m f) = OutOfFuel.
Proof. destruct m as [out [a | e |]]; simpl; try discriminate. reflexivity. Qed.

(** X16: a cycle of components is followed without end.  When the field
    named [0] of a model is a component whose model is, through the cache,
    the model itself, the field map of a non-empty string against that
    model exhausts every budget: the string's first character is mapped
    against the same model again and again. *)
Theorem cyclic_component_never_returns fuel model (p : FieldProps) (c : ascii) (s : string) :
  find_field model "0" = Some (StackbitField p) ->
  field_type p = Some Fmodel ->
  getModelByName (hd_error (field_models p)) = Some model ->
  snd (toFields getModelByName fuel (JString (String c s)) (Some model)) = OutOfFuel.
Proof.
  intros Hf Ht Hm. revert c s. induction fuel as [| fuel IH]; intros c s; [reflexivity |].
  cbn [toFields Object_entries]. rewrite bind_ret_l.
  cbn [characters indexed filter snd not_null reduceM].
  change (decimal (Z.of_nat 0)) with "0".
  apply bind_exhausted. unfold toFields_step. rewrite Hf.
  apply bind_exhausted. unfold toDocumentFieldWith. simpl Field_type. rewrite Ht.
  simpl Field_models_0. rewrite bind_ret_l, Hm.
  apply bind_exhausted. apply IH.
Qed.

End Budget.

Lemma landing_cache_models name model :
  landing_cache name = Some model -> model = tag_model \/ model = landing_model.
Proof.
  unfold landing_cache, cache_of. destruct name as [n |]; [| discriminate].
  cbn [find].
  destruct (model_name tag_model =? n); [intros H; inversion H; auto |].
  destruct (model_name landing_model =? n); [intros H; inversion H; auto | discriminate].
Qed.

Lemma landing_rank_decreases name model fields f target :
  landing_cache name = Some model ->
  model_fields model = Some fields ->
  In f fields ->
  In target (nested_targets f) ->
  budget landing_rank (landing_cache target) <= landing_rank model.
Proof.
  intros Hm Hfields Hin Htarget.
  apply landing_cache_models in Hm as [-> | ->]; inversion Hfields; subst fields;
    simpl in Hin; repeat (destruct Hin as [<- | Hin]); try contradiction;
    simpl in Htarget; try contradiction;
    destruct Htarget as [<- | []]; vm_compute; repeat constructor.
Qed.

Lemma acyclic_cache_terminates_witness :
  finishes (toStackbitDocuments landing_cache 3 [landing_page] sample_url).
Proof.
  apply (proj2 (acyclic_cache_terminates landing_cache landing_rank
                  landing_rank_decreases 3)).
  intros doc [<- | []]. vm_compute. repeat constructor.
Defined.

Lemma cyclic_component_never_returns_witness :
  snd (toFields (cache_of [cyclic_model]) 40 (JString "ab") (Some cyclic_model)) =
  OutOfFuel.
Proof.
  exact (cyclic_component_never_returns (cache_of [cyclic_model]) 40 cyclic_model
           loop_field "a" "b" eq_refl eq_refl eq_refl).
Defined.

(** ** Float attributes downstream *)

Lemma float_attribute_field (name : string) (a : AttributeModel) :
  attr_type a = "float" ->
  exists p,
    toStackbitField (name, a) = ret (StackbitField p) /\
    field_type p = None /\ field_name p = name.
Proof.
  intros Htag. rewrite scalar_attribute_field by (rewrite Htag; now left).
  eexists. split; [reflexivity |]. rewrite Htag. split; reflexivity.
Qed.

(** X17: the values of float attributes do not reach the documents.  The
    field that schema mapping builds for a [float] attribute has no type;
    whatever the attribute value, the document field built for it is that
    model field itself, and the value is not part of it. *)
Theorem float_values_are_lost getModelByName fuel (name : string) (a : AttributeModel)
  (v : JsValue) :
  attr_type a = "float" ->
  exists f,
    toStackbitField (name, a) = ret f /\
    Field_name f = Some name /\
    toDocumentField getModelByName fuel (Some f) v = ret (Some (FieldAsDocumentField f)).
Proof.
  intros Htag. destruct (float_attribute_field name a Htag) as (p & Hp & Ht & Hn).
  exists (StackbitField p). split; [exact Hp |]. split; [simpl; now rewrite Hn |].
  unfold toDocumentField, toDocumentFieldWith. simpl. now rewrite Ht.
Qed.

Lemma float_values_are_lost_witness :
  exists f,
    toStackbitField ("ratio", float_attribute) = ret f /\
    Field_name f = Some "ratio" /\
    toDocumentField sample_cache 1 (Some f) (JNumber 3) =
      ret (Some (FieldAsDocumentField f)).
Proof.
  exact (float_values_are_lost sample_cache 1 "ratio" float_attribute (JNumber 3) eq_refl).
Defined.

(** ** Write path, further *)

(** X18: clearing a float field returns the field instead of a payload.
    An [unset] operation on a model field without type, such as the field
    schema mapping builds for a [float] attribute, ends the batch at once:
    the call returns that model field, the entries written by the earlier
    operations are dropped and the later operations are not looked at. *)
Theorem unset_untyped_field_returns_field fieldPath modelField :
  Field_type modelField = None ->
  (forall before rest out fields,
     stackbitUpdatesToStrapiFields before = (out, Normal (Fields fields)) ->
     stackbitUpdatesToStrapiFields (before ++ OpUnset fieldPath modelField :: rest) =
     (out, Normal (FieldAsPayload modelField))) /\
  (forall before rest out final,
     stackbitUpdatesToStrapiFields (before ++ OpUnset fieldPath modelField :: rest) <>
     (out, Normal (Fields final))).
Proof.
  intros Ht. unfold stackbitUpdatesToStrapiFields. split.
  - intros before rest out fields H.
    destruct (updates_loop_app _ (OpUnset fieldPath modelField :: rest) _ _ _ H)
      as (mid & _ & ->).
    cbn [updates_loop]. rewrite Ht. simpl. now rewrite app_nil_r.
  - intros before rest out final H.
    apply updates_loop_split in H as (o1 & mid & o2 & _ & H).
    cbn [updates_loop] in H. rewrite Ht in H. discriminate.
Qed.

Lemma unset_untyped_field_returns_field_witness :
  toStackbitField ("ratio", float_attribute) = ret ratio_field /\
  stackbitUpdatesToStrapiFields
    ([OpSet title_update [Key "title"]] ++ OpUnset [Key "ratio"] ratio_field
     :: [OpSet title_update [Key "subtitle"]]) =
  ([], Normal (FieldAsPayload ratio_field)).
Proof.
  split; [reflexivity |].
  exact (proj1 (unset_untyped_field_returns_field [Key "ratio"] ratio_field eq_refl)
               [OpSet title_update [Key "title"]]
               [OpSet title_update [Key "subtitle"]] []
               [("title", JString "Hello")] eq_refl).
Defined.

Lemma set_converted field fieldPath rest fields :
  In (uof_type field) convertible_types ->
  updates_loop (OpSet field fieldPath :: rest) fields =
  updates_loop rest (set_property (first_segment fieldPath) (converted field) fields).
Proof.
  intros Hin. cbn [updates_loop].
  unfold convertUpdateOperationFieldToStrapiDocumentField, converted.
  unfold convertible_types, value_types in Hin. simpl in Hin.
  repeat (destruct Hin as [<- | Hin]; [now rewrite bind_ret_l |]). contradiction.
Qed.

Lemma set_rejected field fieldPath rest fields :
  In (uof_type field) composite_types ->
  updates_loop (OpSet field fieldPath :: rest) fields =
  ([], Throw (set_error (uof_type field))).
Proof.
  intros Hin. cbn [updates_loop].
  unfold convertUpdateOperationFieldToStrapiDocumentField, set_error.
  unfold composite_types in Hin. simpl in Hin.
  repeat (destruct Hin as [<- | Hin]; [reflexivity |]). contradiction.
Qed.

(** X19: what a [set] operation writes.  A [set] operation on a field of a
    value type assigns its [value], and one on a reference its [refId], to
    the key [fieldPath[0]]: for a key other than [__proto__], which an
    assignment may not define, the key is present in the payload the batch
    returns, with that value unless a later operation writes the same key.
    A [set] operation on an image, object, model, cross-reference or list
    throws [updating field of type ... not implemented], and the batch
    returns no payload. *)
Theorem set_operations field fieldPath :
  let key := first_segment fieldPath in
  let op := OpSet field fieldPath in
  (In (uof_type field) convertible_types ->
   key <> "__proto__" ->
   forall before rest out final,
     stackbitUpdatesToStrapiFields (before ++ op :: rest) =
       (out, Normal (Fields final)) ->
     lookup key final <> None /\
     (Forall (fun later => writes key later = false) rest ->
      lookup key final = Some (converted field))) /\
  (In (uof_type field) composite_types ->
   (forall before rest out fields,
      stackbitUpdatesToStrapiFields before = (out, Normal (Fields fields)) ->
      stackbitUpdatesToStrapiFields (before ++ op :: rest) =
        (out, Throw (set_error (uof_type field)))) /\
   (forall before rest out final,
      stackbitUpdatesToStrapiFields (before ++ op :: rest) <>
        (out, Normal (Fields final)))).
Proof.
  intros key op. unfold stackbitUpdatesToStrapiFields. split.
  - intros Hin Hkey before rest out final H.
    apply updates_loop_split in H as (out1 & mid & out2 & _ & H).
    unfold op in H. rewrite (set_converted _ _ _ _ Hin) in H. fold key in H.
    split.
    + eapply updates_loop_present; [exact H |]. now rewrite lookup_set_same.
    + intros Hw. rewrite (updates_loop_unwritten _ _ _ _ key H Hw).
      now apply lookup_set_same.
  - intros Hin. split.
    + intros before rest out fields H.
      destruct (updates_loop_app _ (op :: rest) _ _ _ H) as (mid & _ & ->).
      unfold op. rewrite (set_rejected _ _ _ _ Hin). simpl. now rewrite app_nil_r.
    + intros before rest out final H.
      apply updates_loop_split in H as (out1 & mid & out2 & _ & H).
      unfold op in H. rewrite (set_rejected _ _ _ _ Hin) in H. discriminate.
Qed.

Lemma set_operations_witness :
  lookup "author" [("title", JString "Hello"); ("author", JString "user#5")] =
    Some (JString "user#5") /\
  stackbitUpdatesToStrapiFields
    ([OpSet title_update [Key "title"]] ++ OpSet cover_update [Key "cover"] :: []) =
    ([], Throw (Error "updating field of type image not implemented")).
Proof.
  split.
  - refine (proj2 (proj1 (set_operations author_update [Key "author"]) _ _
                         [OpSet title_update [Key "title"]] [] []
                         [("title", JString "Hello"); ("author", JString "user#5")]
                         eq_refl) _).
    + unfold convertible_types. apply in_or_app. right. now left.
    + discriminate.
    + constructor.
  - refine (proj1 (proj2 (set_operations cover_update [Key "cover"]) _)
                  [OpSet title_update [Key "title"]] [] []
                  [("title", JString "Hello")] eq_refl).
    now left.
Defined.

Lemma first_segment_cut fieldPath :
  first_segment (first_segment_only fieldPath) = first_segment fieldPath.
Proof. destruct fieldPath as [| [] ?]; reflexivity. Qed.

Lemma updates_loop_cut ops fields :
  updates_loop (map cut_path ops) fields = updates_loop ops fields.
Proof.
  revert fields. induction ops as [| op ops IH]; intros fields; [reflexivity |].
  destruct op as [field fieldPath | fieldPath modelField | opType];
    cbn [map cut_path updates_loop].
  - rewrite first_segment_cut. apply bind_ext. intros v. apply IH.
  - rewrite first_segment_cut.
    destruct (Field_type modelField) as [[] |]; try reflexivity; apply IH.
  - reflexivity.
Qed.

(** X20: only the first segment of a field path counts.  Cutting every
    field path of a batch after its first segment changes nothing: the
    payload, or the exception, is the same. *)
Theorem only_first_segment_counts (operations : list UpdateOperation) :
  stackbitUpdatesToStrapiFields (map cut_path operations) =
  stackbitUpdatesToStrapiFields operations.
Proof. apply updates_loop_cut. Qed.

Lemma updates_loop_silent ops fields : fst (updates_loop ops fields) = [].
Proof.
  revert fields. induction ops as [| op ops IH]; intros fields; [reflexivity |].
  destruct op as [field fieldPath | fieldPath modelField | opType];
    cbn [updates_loop].
  - unfold convertUpdateOperationFieldToStrapiDocumentField.
    destruct (uof_type field); try reflexivity; rewrite bind_ret_l; apply IH.
  - destruct (Field_type modelField) as [[] |]; try reflexivity; apply IH.
  - reflexivity.
Qed.

Lemma updates_loop_keys ops fields out final :
  updates_loop ops fields = (out, Normal (Fields final)) ->
  NoDup (map fst (own fields)) ->
  NoDup (map fst final) /\
  forall key,
    In key (map fst final) ->
    In key (map fst (own fields)) \/ exists op, In op ops /\ writes key op = true.
Proof.
  revert fields out.
  induction ops as [| op ops IH]; intros fields out H Hnd; cbn [updates_loop] in H.
  - inversion H; subst. auto.
  - assert (G : forall v path,
               writes (first_segment path) op = true ->
               updates_loop ops (set_property (first_segment path) v fields) =
                 (out, Normal (Fields final)) ->
               NoDup (map fst final) /\
               forall key, In key (map fst final) ->
                 In key (map fst (own fields)) \/
                 exists op', In op' (op :: ops) /\ writes key op' = true).
    { intros v path Hw H'.
      destruct (IH _ _ H' (NoDup_set _ _ _ Hnd)) as (Hnd' & Hkeys).
      split; auto. intros key Hin.
      destruct (Hkeys key Hin) as [Hk | (op' & Hop' & Hw')].
      - apply In_set_key in Hk as [-> | Hk]; [| now left].
        right. exists op. split; [now left | exact Hw].
      - right. exists op'. split; [now right | exact Hw']. }
    destruct op as [field fieldPath | fieldPath modelField | opType].
    + unfold convertUpdateOperationFieldToStrapiDocumentField in H.
      destruct (uof_type field); try discriminate;
        (rewrite bind_ret_l in H; eapply G; [apply String.eqb_refl | exact H]).
    + destruct (Field_type modelField) as [[] |]; try discriminate;
        (eapply G; [apply String.eqb_refl | exact H]).
    + discriminate.
Qed.

(** X21: what a payload holds.  The write path writes nothing to the
    console, however the call ends; a payload it returns has no two entries
    of one key, and every key is the first path segment of a [set] or
    [unset] operation of the batch. *)
Theorem payload_keys operations :
  fst (stackbitUpdatesToStrapiFields operations) = [] /\
  forall final,
    snd (stackbitUpdatesToStrapiFields operations) = Normal (Fields final) ->
    NoDup (map fst final) /\
    forall key,
      In key (map fst final) ->
      exists op, In op operations /\ writes key op = true.
Proof.
  split; [apply updates_loop_silent |].
  intros final H. unfold stackbitUpdatesToStrapiFields in H.
  destruct (updates_loop operations empty_object) as [out r] eqn:E.
  simpl in H. subst r.
  apply updates_loop_keys in E as (Hnd & Hkeys); [| constructor].
  split; auto. intros key Hin.
  destruct (Hkeys key Hin) as [[] | ?]. assumption.
Qed.

Lemma payload_keys_witness :
  NoDup (map fst [("title", JString "Hello"); ("author", JUndefined)]) /\
  forall key,
    In key (map fst [("title", JString "Hello"); ("author", JUndefined)]) ->
    exists op,
      In op [OpUnset [Key "title"] (sample_field Fstring "title");
             OpUnset [Key "author"] (StackbitField author_field);
             OpSet title_update [Key "title"; Index 0]] /\
      writes key op = true.
Proof.
  exact (proj2 (payload_keys
                  [OpUnset [Key "title"] (sample_field Fstring "title");
                   OpUnset [Key "author"] (StackbitField author_field);
                   OpSet title_update [Key "title"; Index 0]])
               [("title", JString "Hello"); ("author", JUndefined)] eq_refl).
Defined.

(** X22: an operation that is neither [set] nor [unset].  It throws the
    error naming its [opType] once the operations before it are processed,
    and a batch that holds one returns no payload. *)
Theorem other_operation_throws (opType : string) :
  (forall before rest out fields,
     stackbitUpdatesToStrapiFields before = (out, Normal (Fields fields)) ->
     stackbitUpdatesToStrapiFields (before ++ OpOther opType :: rest) =
       (out, Throw (Error ("'" +++ opType +++ "' operation not implemented")))) /\
  (forall before rest out final,
     stackbitUpdatesToStrapiFields (before ++ OpOther opType :: rest) <>
       (out, Normal (Fields final))).
Proof.
  unfold stackbitUpdatesToStrapiFields. split.
  - intros before rest out fields H.
    destruct (updates_loop_app _ (OpOther opType :: rest) _ _ _ H) as (mid & _ & ->).
    simpl. now rewrite app_nil_r.
  - intros before rest out final H.
    apply updates_loop_split in H as (o1 & mid & o2 & _ & H). discriminate.
Qed.

Lemma other_operation_throws_witness :
  stackbitUpdatesToStrapiFields
    ([OpSet title_update [Key "title"]] ++ OpOther "insert"
     :: [OpSet title_update [Key "subtitle"]]) =
  ([], Throw (Error "'insert' operation not implemented")).
Proof.
  exact (proj1 (other_operation_throws "insert")
               [OpSet title_update [Key "title"]] _ [] _ eq_refl).
Defined.

Lemma convert_converted (field : UpdateOperationField) :
  In (uof_type field) convertible_types ->
  convertUpdateOperationFieldToStrapiDocumentField field = ret (converted field).
Proof.
  intros Hin. unfold convertUpdateOperationFieldToStrapiDocumentField, converted.
  unfold convertible_types, value_types in Hin. simpl in Hin.
  repeat (destruct Hin as [<- | Hin]; [reflexivity |]). contradiction.
Qed.

Lemma convert_rejected (field : UpdateOperationField) :
  In (uof_type field) composite_types ->
  convertUpdateOperationFieldToStrapiDocumentField field =
  throw (set_error (uof_type field)).
Proof.
  intros Hin. unfold convertUpdateOperationFieldToStrapiDocumentField, set_error.
  unfold composite_types in Hin. simpl in Hin.
  repeat (destruct Hin as [<- | Hin]; [reflexivity |]). contradiction.
Qed.

Lemma initial_fields_fold entries fields :
  Forall (fun entry => In (uof_type (snd entry)) convertible_types) entries ->
  reduceM (fun fields entry =>
             v <- convertUpdateOperationFieldToStrapiDocumentField (snd entry) ;;
             ret (set_property (fst entry) v fields))
          entries fields =
  ret (fold_left put_converted entries fields).
Proof.
  intros H. revert fields. induction H as [| entry entries Hc _ IH]; intros fields;
    cbn [reduceM fold_left]; [reflexivity |].
  now rewrite (convert_converted _ Hc), !bind_ret_l, IH.
Qed.

Lemma lookup_absent {A : Type} (key : string) (entries : list (string * A)) :
  ~ In key (map fst entries) -> lookup key entries = None.
Proof.
  induction entries as [| [k v] rest IH]; simpl; [reflexivity |].
  intros H. destruct (k =? key) eqn:E.
  - apply String.eqb_eq in E. tauto.
  - apply IH. tauto.
Qed.

Lemma lookup_fold_unwritten entries fields key :
  ~ In key (map fst entries) ->
  lookup key (own (fold_left put_converted entries fields)) = lookup key (own fields).
Proof.
  revert fields. induction entries as [| [k f] rest IH]; intros fields Hnotin;
    cbn [fold_left]; [reflexivity |].
  simpl in Hnotin. rewrite IH by tauto.
  unfold put_converted. simpl. apply lookup_set_other. tauto.
Qed.

Lemma lookup_fold_converted entries fields key :
  NoDup (map fst entries) ->
  key <> "__proto__" ->
  lookup key (own (fold_left put_converted entries fields)) =
  match lookup key entries with
  | Some field => Some (converted field)
  | None => lookup key (own fields)
  end.
Proof.
  intros Hnd Hkey. revert fields Hnd.
  induction entries as [| [k f] rest IH]; intros fields Hnd;
    cbn [fold_left]; [reflexivity |].
  inversion Hnd as [| ? ? Hnotin Hnd']; subst.
  unfold put_converted at 2. simpl.
  destruct (k =? key) eqn:E.
  - apply String.eqb_eq in E. subst k.
    rewrite (lookup_fold_unwritten _ _ _ Hnotin). now apply lookup_set_same.
  - apply String.eqb_neq in E.
    rewrite (IH _ Hnd'). now rewrite (lookup_set_other _ _ _ _ E).
Qed.

(** With field names that are pairwise different, the one assignment to
    [__proto__] meets the object with its first prototype and no property of
    that name, and defines none. *)
Lemma lookup_fold_proto entries fields :
  NoDup (map fst entries) ->
  prototype fields = Object_prototype ->
  lookup "__proto__" (own fields) = None ->
  lookup "__proto__" (own (fold_left put_converted entries fields)) = None.
Proof.
  revert fields. induction entries as [| [k f] rest IH]; intros fields Hnd Hp Hown;
    cbn [fold_left]; [exact Hown |].
  inversion Hnd as [| ? ? Hnotin Hnd']; subst.
  unfold put_converted at 2. simpl.
  destruct (string_dec k "__proto__") as [-> | Hk].
  - rewrite (lookup_fold_unwritten _ _ _ Hnotin).
    unfold set_property, has_own. rewrite Hown, Hp. exact Hown.
  - apply IH; [exact Hnd' | | ].
    + now rewrite (set_property_named _ _ _ Hk).
    + now rewrite (lookup_set_other _ _ _ _ Hk).
Qed.

(** X23: the payload of a new document.  When every initial field has a
    value type or is a reference, [stackbitUpdatedFieldToExampleFields]
    returns a payload that holds each given field name other than
    [__proto__] with the field's [value], or [refId] for a reference, and
    no other name: a field named [__proto__] is left out.  The first field
    of another type makes it throw [updating field of type ... not
    implemented]. *)
Theorem initial_fields_payload :
  (forall entries,
     Forall (fun entry => In (uof_type (snd entry)) convertible_types) entries ->
     NoDup (map fst entries) ->
     exists fields,
       stackbitUpdatedFieldToExampleFields entries = ret fields /\
       (forall key,
          key <> "__proto__" ->
          lookup key fields = option_map converted (lookup key entries)) /\
       lookup "__proto__" fields = None) /\
  (forall before key field after,
     Forall (fun entry => In (uof_type (snd entry)) convertible_types) before ->
     In (uof_type field) composite_types ->
     stackbitUpdatedFieldToExampleFields (before ++ (key, field) :: after) =
     throw (set_error (uof_type field))).
Proof.
  unfold stackbitUpdatedFieldToExampleFields. split.
  - intros entries Hc Hnd. eexists. split; [| split].
    + rewrite (initial_fields_fold _ _ Hc). now rewrite bind_ret_l.
    + intros key Hkey. rewrite (lookup_fold_converted _ _ _ Hnd Hkey).
      now destruct (lookup key entries).
    + now apply lookup_fold_proto.
  - intros before key field after Hc Hin.
    rewrite reduceM_app, (initial_fields_fold _ _ Hc), bind_ret_l. cbn [reduceM snd].
    now rewrite (convert_rejected _ Hin).
Qed.

Lemma initial_fields_payload_witness :
  (exists fields,
     stackbitUpdatedFieldToExampleFields initial_fields = ret fields /\
     (forall key,
        key <> "__proto__" ->
        lookup key fields = option_map converted (lookup key initial_fields)) /\
     lookup "__proto__" fields = None) /\
  stackbitUpdatedFieldToExampleFields
    (initial_fields ++ ("cover", cover_update) :: []) =
    throw (Error "updating field of type image not implemented").
Proof.
  assert (C : Forall (fun entry => In (uof_type (snd entry)) convertible_types)
                     initial_fields).
  { repeat constructor; unfold convertible_types; simpl; tauto. }
  split.
  - apply (proj1 initial_fields_payload initial_fields C).
    repeat constructor; simpl; intuition discriminate.
  - apply (proj2 initial_fields_payload initial_fields "cover" cover_update [] C).
    now left.
Defined.

(** ** The content source *)

(** X24: how [updateDocument] fails.  An exception of the write path is
    thrown before the document id is looked at; with a payload, the call
    throws a [TypeError] when the cache has no model under the part of the
    id before the first separator, or when that model has no context, and
    otherwise requests the model's endpoint with the second piece of the
    id, which is absent for an id without separator. *)
Theorem updateDocument_failures getModelByName (documentId : string)
  (operations : list UpdateOperation) :
  (forall out e,
     stackbitUpdatesToStrapiFields operations = (out, Throw e) ->
     updateDocument getModelByName documentId operations = (out, Throw e)) /\
  (forall out payload,
     stackbitUpdatesToStrapiFields operations = (out, Normal payload) ->
     (getModelByName (fst (decode documentId)) = None ->
      updateDocument getModelByName documentId operations = (out, Throw TypeError)) /\
     (forall model,
        getModelByName (fst (decode documentId)) = Some model ->
        model_context model = None ->
        updateDocument getModelByName documentId operations = (out, Throw TypeError)) /\
     (forall model context,
        getModelByName (fst (decode documentId)) = Some model ->
        model_context model = Some context ->
        updateDocument getModelByName documentId operations =
        (out, Normal {| put_endpoint := apiEndpoint context;
                        put_id := snd (decode documentId);
                        put_fields := payload |}))) /\
  (occurs separator documentId = false ->
   decode documentId = (Some documentId, None)).
Proof.
  unfold updateDocument. repeat split.
  - intros out e ->. reflexivity.
  - intros Hm. rewrite H, (bind_step _ _ out payload eq_refl).
    destruct (decode documentId) as [contentType id]. simpl in Hm. rewrite Hm.
    simpl. now rewrite app_nil_r.
  - intros model Hm Hc. rewrite H, (bind_step _ _ out payload eq_refl).
    destruct (decode documentId) as [contentType id]. simpl in Hm. rewrite Hm, Hc.
    simpl. now rewrite app_nil_r.
  - intros model context Hm Hc. rewrite H, (bind_step _ _ out payload eq_refl).
    destruct (decode documentId) as [contentType id]. simpl in Hm. rewrite Hm, Hc.
    simpl. now rewrite app_nil_r.
  - intros Hsep. unfold decode. now rewrite (split_absent _ _ Hsep).
Qed.

Lemma updateDocument_failures_witness :
  updateDocument sample_cache "event#1" [OpOther "insert"] =
    ([], Throw (Error "'insert' operation not implemented")) /\
  updateDocument sample_cache "event#1" [OpSet title_update [Key "title"]] =
    ([], Throw TypeError) /\
  updateDocument sample_cache "post" [OpSet title_update [Key "title"]] =
    ([], Normal {| put_endpoint := Some "posts"; put_id := None;
                   put_fields := Fields [("title", JString "Hello")] |}).
Proof.
  split; [| split].
  - exact (proj1 (updateDocument_failures sample_cache "event#1" [OpOther "insert"])
                 [] _ eq_refl).
  - exact (proj1 (proj1 (proj2 (updateDocument_failures sample_cache "event#1"
                                  [OpSet title_update [Key "title"]]))
                        [] _ eq_refl) eq_refl).
  - exact (proj2 (proj2 (proj1 (proj2 (updateDocument_failures sample_cache "post"
                                         [OpSet title_update [Key "title"]]))
                               [] _ eq_refl))
                 post_model _ eq_refl eq_refl).
Defined.

(** X25: what the constructor requires.  A content source is constructed
    exactly when both [token] and [jwt] are given and not empty; a missing
    token is reported first, then a missing jwt.  The project id is the
    given [url], or [http://localhost:1337] when none is given, and the
    manage URL is the project id followed by [/admin/content-manager]. *)
Theorem constructor_requires_credentials (o : ContentSourceOptions) :
  (given (opt_token o) = false ->
   StrapiContentSource_new o = throw (Error "StrapiContentSource requires token")) /\
  (given (opt_token o) = true -> given (opt_jwt o) = false ->
   StrapiContentSource_new o = throw (Error "StrapiContentSource requires jwt")) /\
  (given (opt_token o) = true -> given (opt_jwt o) = true ->
   exists this,
     StrapiContentSource_new o = ret this /\
     opt_token o = Some (source_token this) /\
     opt_jwt o = Some (source_jwt this) /\
     getProjectId this = match opt_url o with
                         | Some url => url
                         | None => "http://localhost:1337"
                         end /\
     getProjectManageUrl this = getProjectId this +++ "/admin/content-manager").
Proof.
  unfold StrapiContentSource_new, given.
  destruct (opt_token o) as [[| c token] |]; repeat split; try discriminate;
    destruct (opt_jwt o) as [[| c' jwt] |]; try discriminate; auto.
  intros _ _. eexists. repeat split.
Qed.

Lemma constructor_requires_credentials_witness :
  (exists this,
     StrapiContentSource_new local_options = ret this /\
     opt_token local_options = Some (source_token this) /\
     opt_jwt local_options = Some (source_jwt this) /\
     getProjectId this = "http://localhost:1337" /\
     getProjectManageUrl this = getProjectId this +++ "/admin/content-manager") /\
  StrapiContentSource_new anonymous_options =
    throw (Error "StrapiContentSource requires token").
Proof.
  split.
  - exact (proj2 (proj2 (constructor_requires_credentials local_options))
                 eq_refl eq_refl).
  - exact (proj1 (constructor_requires_credentials anonymous_options) eq_refl).
Defined.

(** X26: where the documents of a source link to.  For a source
    constructed from its options, every document that [getDocuments]
    returns has the manage URL made of the project id,
    [/admin/content-manager/collectionType/api::], the document's type
    twice, joined by a dot, a slash and the decimal source id. *)
Theorem documents_link_to_project getModelByName fuel o this fetched out mapped :
  StrapiContentSource_new o = ret this ->
  getDocuments getModelByName fuel this fetched = (out, Normal mapped) ->
  Forall2
    (fun doc m =>
       document_manageUrl m =
       (getProjectId this +++ "/admin/content-manager") +++ "/collectionType/api::"
         +++ doc_type doc +++ "." +++ doc_type doc +++ "/" +++ decimal (doc_id doc))
    fetched mapped.
Proof.
  intros Hnew H.
  assert (Hurl : manageUrl this = getProjectId this +++ "/admin/content-manager").
  { unfold StrapiContentSource_new in Hnew.
    destruct (opt_token o) as [[| c token] |]; try discriminate.
    destruct (opt_jwt o) as [[| c' jwt] |]; try discriminate.
    inversion Hnew. reflexivity. }
  unfold getDocuments, toStackbitDocuments in H. rewrite Hurl in H.
  eapply mapM_related; [| exact H].
  intros doc o' m _ Hd.
  destruct (toStackbitDocument_parts _ _ _ _ _ _ Hd) as (_ & _ & Hm & _).
  exact Hm.
Qed.

Lemma documents_link_to_project_witness :
  exists mapped,
    getDocuments sample_cache 1 local_source [draft_post] = ([], Normal mapped) /\
    Forall2
      (fun doc m =>
         document_manageUrl m =
         (getProjectId local_source +++ "/admin/content-manager")
           +++ "/collectionType/api::"
           +++ doc_type doc +++ "." +++ doc_type doc +++ "/" +++ decimal (doc_id doc))
      [draft_post] mapped.
Proof.
  eexists. split; [reflexivity |].
  exact (documents_link_to_project sample_cache 1 local_options local_source
           [draft_post] [] _ eq_refl eq_refl).
Defined.

Lemma getWebhook_app webhooks webhook name :
  getWebhook (webhooks ++ [webhook]) name =
  match getWebhook webhooks name with
  | Some found => Some found
  | None => if webhook_name webhook =? name then Some webhook else None
  end.
Proof.
  unfold getWebhook. induction webhooks as [| w webhooks IH]; simpl.
  - reflexivity.
  - destruct (webhook_name w =? name); [reflexivity | exact IH].
Qed.

(** X27: the webhook is created once.  Without a webhook URL (absent or
    empty) [initWebhook] logs nothing and leaves the client's webhooks as
    they are.  With one, the client afterwards has a webhook named
    [stackbit-content-source]: the list is unchanged when it had one and is
    extended by that single webhook when it had none, the webhooks of
    other names are found as before, and running [initWebhook] again
    creates nothing. *)
Theorem initWebhook_creates_once (webhookUrl : option string)
  (webhooks : list ExampleWebhook) :
  (given webhookUrl = false -> initWebhook webhookUrl webhooks = ([], webhooks)) /\
  (given webhookUrl = true ->
   let after := snd (initWebhook webhookUrl webhooks) in
   getWebhook after "stackbit-content-source" <> None /\
   (getWebhook webhooks "stackbit-content-source" <> None -> after = webhooks) /\
   (getWebhook webhooks "stackbit-content-source" = None ->
    after = webhooks ++ [stackbit_webhook]) /\
   (forall name, name <> "stackbit-content-source" ->
                 getWebhook after name = getWebhook webhooks name) /\
   initWebhook webhookUrl after =
     (["checking if stackbit webhook exists";
       "got a stackbit-content-source webhook"], after)).
Proof.
  unfold initWebhook, given.
  destruct webhookUrl as [[| c url] |]; split; try discriminate; try reflexivity.
  intros _.
  destruct (getWebhook webhooks "stackbit-content-source") as [found |] eqn:G;
    cbn [createWebhook snd].
  - rewrite G. repeat split; try discriminate; auto.
  - assert (G' : getWebhook (webhooks ++ [stackbit_webhook]) "stackbit-content-source" =
                 Some stackbit_webhook).
    { rewrite getWebhook_app, G. reflexivity. }
    fold stackbit_webhook. rewrite G'. repeat split; try discriminate; auto.
    { intros H. now contradiction H. }
    intros name Hne. rewrite getWebhook_app.
    destruct (getWebhook webhooks name); [reflexivity |].
    destruct (webhook_name stackbit_webhook =? name) eqn:E; [| reflexivity].
    apply String.eqb_eq in E. simpl in E. congruence.
Qed.

Lemma initWebhook_creates_once_witness :
  initWebhook (Some "") [] = ([], []) /\
  snd (initWebhook (Some "https://hooks.example.org") []) = [] ++ [stackbit_webhook] /\
  initWebhook (Some "https://hooks.example.org")
    (snd (initWebhook (Some "https://hooks.example.org") [])) =
    (["checking if stackbit webhook exists"; "got a stackbit-content-source webhook"],
     snd (initWebhook (Some "https://hooks.example.org") [])).
Proof.
  split; [| split].
  - exact (proj1 (initWebhook_creates_once (Some "") []) eq_refl).
  - exact (proj1 (proj2 (proj2 (proj2 (initWebhook_creates_once
                                         (Some "https://hooks.example.org") [])
                                      eq_refl))) eq_refl).
  - exact (proj2 (proj2 (proj2 (proj2 (proj2 (initWebhook_creates_once
                                                (Some "https://hooks.example.org") [])
                                             eq_refl))))).
Defined.

(** ** Fetching the documents of a model *)

Lemma snd_after_console {A B : Type} (c : ConsoleCall) (a : A) (f : A -> M B) :
  snd (bind (console c a) f) = snd (f a).
Proof. unfold console. simpl. now destruct (f a). Qed.

Lemma pages_loop_steady (fetch : Z -> PageResult) (apiID singularName : string) (n : Z) :
  (forall page, page_pageCount (fetch page) = n) ->
  forall (k fuel : nat) (page : Z) (documents : list StrapiDocument),
    k = Z.to_nat (n - page + 1) ->
    k < fuel ->
    snd (pages_loop fuel fetch apiID singularName page n documents) =
    Normal (documents ++ documents_of_pages fetch apiID (pages_from page k)).
Proof.
  intros Hn. induction k as [| k IH]; intros fuel page documents Hk Hfuel;
    (destruct fuel as [| fuel]; [lia |]); cbn [pages_loop].
  - replace (page <=? n)%Z with false by (symmetry; apply Z.leb_gt; lia).
    simpl. now rewrite app_nil_r.
  - replace (page <=? n)%Z with true by (symmetry; apply Z.leb_le; lia).
    rewrite snd_after_console. cbv zeta.
    rewrite Hn, (IH fuel (page + 1)%Z) by lia.
    cbn [pages_from documents_of_pages flat_map].
    now rewrite <- app_assoc.
Qed.

(** X28: which pages are fetched.  When every response reports the same
    page count [n], [getDocumentsOfModel] returns the documents of the
    pages 1 to [n], in order, each with the model's [apiID] as its type;
    the first page is fetched also when [n] is 0 or less.  A budget above
    the number of pages is not exhausted. *)
Theorem pages_are_fetched_in_order (fuel : nat) (fetch : Z -> PageResult)
  (model : StrapiContentType) (singularName : string) (n : Z) :
  (forall page, page_pageCount (fetch page) = n) ->
  Z.to_nat (Z.max 1 n) < fuel ->
  snd (getDocumentsOfModel fuel fetch model singularName) =
  Normal (documents_of_pages fetch (apiID model)
            (pages_from 1 (Z.to_nat (Z.max 1 n)))).
Proof.
  intros Hn Hfuel. unfold getDocumentsOfModel.
  destruct fuel as [| fuel]; [lia |].
  assert (G : snd (pages_loop (S fuel) fetch (apiID model) singularName 1 1 []) =
              Normal (documents_of_pages fetch (apiID model)
                        (pages_from 1 (Z.to_nat (Z.max 1 n))))).
  { cbn [pages_loop]. change (1 <=? 1)%Z with true. cbv iota.
    rewrite snd_after_console. cbv zeta.
    rewrite Hn.
    rewrite (pages_loop_steady fetch (apiID model) singularName n Hn
               (Z.to_nat (n - (1 + 1) + 1))) by lia.
    replace (Z.to_nat (Z.max 1 n)) with (S (Z.to_nat (n - (1 + 1) + 1))) by lia.
    reflexivity. }
  destruct (pages_loop (S fuel) fetch (apiID model) singularName 1 1 [])
    as [out [documents | e |]]; simpl in G; try discriminate.
  inversion G; subst. simpl. reflexivity.
Qed.

Lemma pages_are_fetched_in_order_witness :
  snd (getDocumentsOfModel 3 two_pages blog_post_type "blog-post") =
  Normal [{| doc_id := 1; doc_type := "blog-post"; doc_attributes := [] |};
          {| doc_id := 2; doc_type := "blog-post"; doc_attributes := [] |}].
Proof.
  refine (pages_are_fetched_in_order 3 two_pages blog_post_type "blog-post" 2
            (fun _ => eq_refl) _).
  vm_compute. repeat constructor.
Defined.
